(** * Verification of the MS-EVB analysis scripts

    A shallow embedding of the three scripts of the repository:

    - [forward_hop.py]: the hop function [eval_hop_function];
    - [civec_pdf.py]: [second_largest], the amplitude loop and the
      free-energy block of [main];
    - [hendersonhasselbalch.py]: the species fractions computed in [main].

    Conventions of the embedding.

    - Python integers are [Z]; list positions and loop counters are [nat].
    - Python floats are idealised as exact reals [R]; where numpy can
      produce a non-finite value (the logarithm of a non-positive number) the
      value type is [npfloat], the reals extended with the two infinities and
      NaN, with numpy's rules for them.  The arrays that [numpy.linspace]
      returns are taken as given, like the densities that the estimator
      returns, so that no statement rests on a rounded grid value.  The
      shift of the zero point is also given in binary64, where rounding
      shows.
    - A Python exception is a value of [exn]; code that can raise lives in
      the monad [result].
    - The scripts are Python 2 ([from __future__ import print_function]); in
      Python 2 [None] orders below every number, which [second_largest]
      relies on. *)

From Stdlib Require Import ZArith Reals Lra Lia List Bool Permutation.
From Stdlib Require Import Floats.PrimFloat.
Import ListNotations.

(** A decimal binary64 literal denotes the nearest binary64 number, as in
    Python. *)
Set Warnings "-inexact-float".

(** ** Python runtime *)

Module Py.

Inductive exn : Set :=
| IndexError
| TypeError
| ValueError.

Inductive result (A : Type) : Type :=
| Ok (a : A)
| Raise (e : exn).

Arguments Ok {A} a.
Arguments Raise {A} e.

Definition bind {A B : Type} (c : result A) (k : A -> result B) : result B :=
  match c with
  | Ok a => k a
  | Raise e => Raise e
  end.

(** [l[i]] for a non-negative index. *)
Definition getitem {A : Type} (l : list A) (i : nat) : result A :=
  match nth_error l i with
  | Some a => Ok a
  | None => Raise IndexError
  end.

(** [l[-1]]. *)
Definition getitem_last {A : Type} (l : list A) : result A :=
  match l with
  | [] => Raise IndexError
  | _ :: _ => getitem l (length l - 1)
  end.

(** [range(a, b)]. *)
Definition range (a b : nat) : list nat := seq a (b - a).

(** [for x in xs: st = body(st, x)], stopping at the first exception. *)
Fixpoint for_each {S X : Type} (body : S -> X -> result S)
         (xs : list X) (st : S) : result S :=
  match xs with
  | [] => Ok st
  | x :: xs' => bind (body st x) (for_each body xs')
  end.

End Py.

Import Py.

Notation "x <- c ;; k" := (Py.bind c (fun x => k))
  (at level 61, c at next level, right associativity).

(** ** forward_hop.py *)

Module forward_hop.

Open Scope Z_scope.

(** The two lists the loop of [eval_hop_function] mutates. *)
Record hop_state : Set := mk_hop_state {
  hts : list Z;
  pdonor : list Z
}.

(** [hts = [0]], [pdonor = [0]]. *)
Definition hop_init : hop_state := {| hts := [0]; pdonor := [0] |}.

(** One iteration of [for i in range(1,numts)]. *)
Definition hop_body (rxncenter : list Z) (st : hop_state) (i : nat)
  : result hop_state :=
  pcenter <- getitem rxncenter (i - 1) ;;
  ccenter <- getitem rxncenter i ;;
  vp <- (if pcenter =? ccenter then Ok (0, pdonor st)
         else
           top <- getitem_last (pdonor st) ;;
           if ccenter =? top then Ok (-1, pdonor st)
           else Ok (1, pdonor st ++ [pcenter])) ;;
  hprev <- getitem (hts st) (i - 1) ;;
  Ok {| hts := hts st ++ [hprev + fst vp]; pdonor := snd vp |}.

(** The loop state after the iterations [i = 1 .. k]. *)
Definition hop_run (rxncenter : list Z) (k : nat) : result hop_state :=
  for_each (hop_body rxncenter) (range 1 (S k)) hop_init.

Definition eval_hop_function (ts rxncenter : list Z) : result (list Z) :=
  let numts := length ts in
  st <- for_each (hop_body rxncenter) (range 1 numts) hop_init ;;
  Ok (hts st).

(** The donor history as it stands after the iterations [1 .. k]. *)
Definition donor_history (rxncenter : list Z) (k : nat) : result (list Z) :=
  st <- hop_run rxncenter k ;; Ok (pdonor st).

(** The transition rule in closed form: the delta added for the pair
    [(prev, curr)] when [top] is the last donor, and the donor list left
    behind. *)
Definition hop_delta (prev curr top : Z) : Z :=
  if prev =? curr then 0 else if curr =? top then -1 else 1.

Definition hop_stack (prev curr top : Z) (stk : list Z) : list Z :=
  if prev =? curr then stk else if curr =? top then stk else stk ++ [prev].

End forward_hop.

(** ** civec_pdf.py *)

Module civec_pdf.

Open Scope R_scope.

(** *** [second_largest] and the amplitude loop *)

(** [x >= m] where [m] may still be [None] (Python 2 ordering). *)
Definition ge_none (x : R) (m : option R) : bool :=
  match m with
  | None => true
  | Some y => if Rge_dec x y then true else false
  end.

(** [x > m] where [m] may still be [None]. *)
Definition gt_none (x : R) (m : option R) : bool :=
  match m with
  | None => true
  | Some y => if Rgt_dec x y then true else false
  end.

(** The body of [for x in numbers] on the pair [(m1, m2)]. *)
Definition second_largest_step (st : option R * option R) (x : R)
  : option R * option R :=
  let (m1, m2) := st in
  if ge_none x m1 then (Some x, m1)
  else if gt_none x m2 then (m1, Some x)
  else (m1, m2).

Definition second_largest (numbers : list R) : option R :=
  snd (fold_left second_largest_step numbers (None, None)).

(** The builtin [max] of a list: [ValueError] on the empty list. *)
Definition py_max (l : list R) : result R :=
  match l with
  | [] => Raise ValueError
  | x :: r => Ok (fold_left (fun m y => if Rgt_dec y m then y else m) r x)
  end.

(** [v*v] for a value that may be [None]: [None*None] is a [TypeError]. *)
Definition square (v : option R) : result R :=
  match v with
  | None => Raise TypeError
  | Some x => Ok (x * x)
  end.

(** One iteration of [for i in tmp] on the arrays [(first, second)]. *)
Definition sample_body (st : list R * list R) (i : list R)
  : result (list R * list R) :=
  l <- py_max i ;;
  let l2 := second_largest i in
  let first := fst st ++ [l * l] in
  sq2 <- square l2 ;;
  let second := snd st ++ [sq2] in
  Ok (first, second).

(** Lines 54-61 of [main]: the arrays [first] and [second]. *)
Definition amplitude_samples (tmp : list (list R))
  : result (list R * list R) :=
  for_each sample_body tmp ([], []).

(** *** numpy values *)

Inductive npfloat : Type :=
| Fin (r : R)
| PInf
| NInf
| NaN.

Definition is_finite (v : npfloat) : Prop :=
  match v with Fin _ => True | _ => False end.

(** [numpy.log] of a finite number: [-inf] at zero, NaN below. *)
Definition np_log (x : R) : npfloat :=
  if Rlt_dec 0 x then Fin (ln x)
  else if Rlt_dec x 0 then NaN
  else NInf.

(** The sign of a real times an infinity of sign [pos]. *)
Definition scale_inf (x : R) (pos : bool) : npfloat :=
  if Rlt_dec 0 x then (if pos then PInf else NInf)
  else if Rlt_dec x 0 then (if pos then NInf else PInf)
  else NaN.

Definition np_mul (a b : npfloat) : npfloat :=
  match a, b with
  | NaN, _ | _, NaN => NaN
  | Fin x, Fin y => Fin (x * y)
  | Fin x, PInf | PInf, Fin x => scale_inf x true
  | Fin x, NInf | NInf, Fin x => scale_inf x false
  | PInf, PInf | NInf, NInf => PInf
  | PInf, NInf | NInf, PInf => NInf
  end.

Definition np_neg (a : npfloat) : npfloat :=
  match a with
  | Fin x => Fin (- x)
  | PInf => NInf
  | NInf => PInf
  | NaN => NaN
  end.

Definition np_add (a b : npfloat) : npfloat :=
  match a, b with
  | NaN, _ | _, NaN => NaN
  | Fin x, Fin y => Fin (x + y)
  | PInf, NInf | NInf, PInf => NaN
  | PInf, _ | _, PInf => PInf
  | NInf, _ | _, NInf => NInf
  end.


(** [a < b]; every comparison with NaN is false. *)
Definition np_lt (a b : npfloat) : bool :=
  match a, b with
  | NaN, _ | _, NaN => false
  | Fin x, Fin y => if Rlt_dec x y then true else false
  | NInf, NInf | PInf, _ => false
  | NInf, _ => true
  | Fin _, PInf => true
  | Fin _, NInf => false
  end.

(** The builtin [min] of an array: it keeps its current value unless the
    next item compares below it. *)
Definition py_min (l : list npfloat) : result npfloat :=
  match l with
  | [] => Raise ValueError
  | x :: r => Ok (fold_left (fun m y => if np_lt y m then y else m) r x)
  end.

(** The points of [numpy.linspace(start, stop, num)] in exact arithmetic.
    numpy computes them in binary64, so its array can differ from this one
    by rounding; this list stands for it only where its points are exactly
    representable. *)
Definition linspace_exact (start stop : R) (num : nat) : list R :=
  match num with
  | O => []
  | S O => [start]
  | _ => map (fun k => start + INR k * ((stop - start) / INR (num - 1)))
             (seq 0 num)
  end.

(** Element-wise [a - b] of two arrays. *)
Definition arr_sub (a b : list R) : list R :=
  map (fun p => fst p - snd p) (combine a b).

(** *** The free-energy block of [main] *)

Definition kb : R := 1.3806488e-23.
Definition kb_kcal : R := kb / 6.9477e-21.

Section FreeEnergy.

(** [numpy.linspace] is an external collaborator: [linspace start stop num]
    is the array of [num] grid points it returns. *)
Variable linspace : R -> R -> nat -> list R.

(** The kernel density estimator is an external collaborator:
    [gaussian_kde samples] is the fitted density, a function of the
    coordinate. *)
Variable gaussian_kde : list R -> R -> R.

(** The value appended for a grid point [i] when [genfe] is set. *)
Definition energy_single (first : list R) (i : R) : npfloat :=
  let pdf1 := gaussian_kde first in
  np_mul (Fin (- kb_kcal * 300.0)) (np_log (pdf1 i)).

(** The value appended for a grid point [i] when only [genfed] is set. *)
Definition energy_diff (first second : list R) (i : R) : npfloat :=
  let pdf3 := gaussian_kde (arr_sub first second) in
  let pdf4 := gaussian_kde (arr_sub second first) in
  if Rlt_dec i (-0.04) then
    np_mul (Fin (- kb_kcal * 300.0)) (np_log (pdf4 i))
  else if Rgt_dec i 0.04 then
    np_mul (Fin (- kb_kcal * 300.0)) (np_log (pdf3 i))
  else Fin 0.0.

(** The grid the energy is computed on. *)
Definition energy_grid (genfe : bool) (nbins : nat) : list R :=
  if genfe then linspace 0 1 nbins else linspace (-1) 1 (2 * nbins).

(** [free_energy] as it stands before the shift of the zero point. *)
Definition pre_shift_energy (genfe : bool) (nbins : nat)
           (first second : list R) : list npfloat :=
  if genfe then map (energy_single first) (linspace 0 1 nbins)
  else map (energy_diff first second) (linspace (-1) 1 (2 * nbins)).

(** [minfe = min(free_energy); free_energy += -minfe]. *)
Definition shift_zero (free_energy : list npfloat)
  : result (list npfloat) :=
  minfe <- py_min free_energy ;;
  Ok (map (fun v => np_add v (np_neg minfe)) free_energy).

(** The block [if genfe or genfed:]; [None] when no free energy is
    requested.  [nbins] is the integer bin count (200 unless changed). *)
Definition free_energy_profile (genfe genfed : bool) (nbins : nat)
           (first second : list R) : result (option (list npfloat)) :=
  if genfe || genfed then
    fe <- shift_zero (pre_shift_energy genfe nbins first second) ;;
    Ok (Some fe)
  else Ok None.

(** The density value whose logarithm the code takes at the grid
    coordinate [x]; [None] in the dead zone of the difference mode. *)
Definition log_argument (genfe : bool) (first second : list R) (x : R)
  : option R :=
  if genfe then Some (gaussian_kde first x)
  else if Rlt_dec x (-0.04) then
    Some (gaussian_kde (arr_sub second first) x)
  else if Rgt_dec x 0.04 then
    Some (gaussian_kde (arr_sub first second) x)
  else None.

End FreeEnergy.

(** *** The shift of the zero point in binary64 *)



End civec_pdf.

(** ** hendersonhasselbalch.py *)

Module hendersonhasselbalch.

Open Scope R_scope.

Definition ka1 : R := 3.54e-4.
Definition ka2 : R := 4.69e-11.

(** The body of [for ph in phvals]: the triple [(tmp1, tmp2, tmp3)]. *)
Definition species_fractions (ph : R) : R * R * R :=
  let h3o := Rpower 10 (- ph) in
  let tmp1 := h3o * h3o / (h3o * h3o + h3o * ka1 + ka1 * ka2) in
  let tmp2 := h3o * ka1 / (h3o * h3o + h3o * ka1 + ka1 * ka2) in
  let tmp3 := ka1 * ka2 / (h3o * h3o + h3o * ka1 + ka1 * ka2) in
  (tmp1, tmp2, tmp3).

End hendersonhasselbalch.

(** ** Vocabulary of the statements *)

Module Spec.

Open Scope R_scope.

(** [m1] is the largest and [m2] the second-largest entry of [l],
    counted with multiplicity: [l] is [m1], [m2] and entries not
    above [m2], in some order. *)
Definition top_two (l : list R) (m1 m2 : R) : Prop :=
  exists rest,
    Permutation l (m1 :: m2 :: rest)
    /\ m2 <= m1
    /\ Forall (fun y => y <= m2) rest.

(** What the pair [(m1, m2)] of [second_largest] means once the prefix
    [p] of the input has been read. *)
Definition seen (p : list R) (st : option R * option R) : Prop :=
  match st with
  | (None, None) => p = []
  | (Some m1, None) => p = [m1]
  | (Some m1, Some m2) => top_two p m1 m2
  | (None, Some _) => False
  end.

End Spec.

(** ** Families of trajectories *)

Module Trajectory.

Open Scope Z_scope.

(** The center sequence [a, b, a, b, ...] of length [n]: a proton that
    oscillates between two sites. *)
Fixpoint alternating (a b : Z) (n : nat) : list Z :=
  match n with
  | O => []
  | S n' => a :: alternating b a n'
  end.

(** The hop counts [0, 1, 0, 1, ...] at the frames [0 .. n-1]. *)
Definition parity_counts (n : nat) : list Z :=
  map (fun t => if Nat.even t then 0 else 1) (seq 0 n).

(** The hop counts [0, 1, 2, ...] at the frames [0 .. n-1]. *)
Definition frame_counts (n : nat) : list Z :=
  map Z.of_nat (seq 0 n).

End Trajectory.

(** * Properties *)

(** Settle a comparison of closed real expressions, innermost first. *)
Ltac settle_test d :=
  first [ destruct d as [?|?]; [ | exfalso; lra ]
        | destruct d as [?|?]; [ exfalso; lra | ] ].

Ltac decide_reals :=
  repeat match goal with
         | |- context [Rge_dec ?a ?b] => settle_test (Rge_dec a b)
         | |- context [Rgt_dec ?a ?b] => settle_test (Rgt_dec a b)
         | |- context [Rlt_dec ?a ?b] => settle_test (Rlt_dec a b)
         end.

(** ** The runtime *)

Section RuntimeFacts.

Context {S X : Type}.
Variable body : S -> X -> result S.

Lemma for_each_app (xs ys : list X) (st : S) :
  for_each body (xs ++ ys) st
  = Py.bind (for_each body xs st) (for_each body ys).
Proof.
  revert st; induction xs as [|x xs IH]; intros st; simpl; [reflexivity|].
  destruct (body st x) as [st'|e]; simpl; [apply IH | reflexivity].
Qed.

Lemma for_each_snoc (xs : list X) (x : X) (st : S) :
  for_each body (xs ++ [x]) st
  = Py.bind (for_each body xs st) (fun st' => body st' x).
Proof.
  rewrite for_each_app. destruct (for_each body xs st) as [st'|e]; simpl;
    [destruct (body st' x); reflexivity | reflexivity].
Qed.

End RuntimeFacts.

Lemma getitem_Ok {A : Type} (l : list A) (i : nat) (a : A) :
  getitem l i = Ok a <-> nth_error l i = Some a.
Proof.
  unfold getitem. destruct (nth_error l i); split; intros H;
    inversion H; reflexivity.
Qed.

Lemma getitem_last_snoc {A : Type} (l : list A) (a : A) :
  getitem_last (l ++ [a]) = Ok a.
Proof.
  unfold getitem_last. destruct (l ++ [a]) eqn:E.
  - destruct l; discriminate.
  - rewrite <- E. apply getitem_Ok.
    rewrite length_app, nth_error_app2; simpl; [|lia].
    replace (length l + 1 - 1 - length l)%nat with 0%nat by lia. reflexivity.
Qed.

Lemma getitem_last_total {A : Type} (l : list A) :
  l <> [] -> exists a, getitem_last l = Ok a.
Proof.
  intros H. destruct (exists_last H) as (l' & a & ->).
  exists a. apply getitem_last_snoc.
Qed.

(** ** forward_hop.py *)

Section HopFacts.

Import forward_hop.
Open Scope Z_scope.

Variable rxncenter : list Z.

Lemma hop_run_S (k : nat) :
  hop_run rxncenter (S k)
  = Py.bind (hop_run rxncenter k) (fun st => hop_body rxncenter st (S k)).
Proof.
  unfold hop_run, range.
  replace (S (S k) - 1)%nat with (S k) by lia.
  replace (S k - 1)%nat with k by lia.
  rewrite seq_S. rewrite for_each_snoc. reflexivity.
Qed.

Lemma hop_body_Ok (st : hop_state) (i : nat) (prev curr top h0 : Z) :
  nth_error rxncenter (i - 1) = Some prev ->
  nth_error rxncenter i = Some curr ->
  getitem_last (pdonor st) = Ok top ->
  nth_error (hts st) (i - 1) = Some h0 ->
  hop_body rxncenter st i
  = Ok {| hts := hts st ++ [h0 + hop_delta prev curr top];
          pdonor := hop_stack prev curr top (pdonor st) |}.
Proof.
  intros Hp Hc Ht Hh. unfold hop_body, hop_delta, hop_stack.
  apply getitem_Ok in Hp, Hc, Hh. rewrite Hp, Hc; simpl.
  destruct (prev =? curr); simpl.
  - rewrite Hh; reflexivity.
  - rewrite Ht; simpl. destruct (curr =? top); simpl; rewrite Hh; reflexivity.
Qed.

Lemma hop_stack_nonempty (prev curr top : Z) (stk : list Z) :
  stk <> [] -> hop_stack prev curr top stk <> [].
Proof.
  intros H. unfold hop_stack.
  destruct (prev =? curr); [exact H|].
  destruct (curr =? top); [exact H|].
  destruct stk; [congruence | discriminate].
Qed.

(** The loop never raises while the index stays inside [rxncenter]; [hts]
    has one entry per frame seen and the donor list is never empty. *)
Lemma hop_run_total (k : nat) :
  (k < length rxncenter)%nat ->
  exists st, hop_run rxncenter k = Ok st
             /\ length (hts st) = S k /\ pdonor st <> [].
Proof.
  induction k as [|k IH]; intros Hk.
  - exists hop_init. repeat split. discriminate.
  - destruct IH as (st & Hrun & Hlen & Hne); [lia|].
    destruct (nth_error rxncenter (S k - 1)) as [prev|] eqn:Hp;
      [|apply nth_error_None in Hp; lia].
    destruct (nth_error rxncenter (S k)) as [curr|] eqn:Hc;
      [|apply nth_error_None in Hc; lia].
    destruct (getitem_last_total _ Hne) as (top & Ht).
    destruct (nth_error (hts st) (S k - 1)) as [h0|] eqn:Hh;
      [|apply nth_error_None in Hh; lia].
    rewrite hop_run_S, Hrun; simpl.
    rewrite (hop_body_Ok st (S k) prev curr top h0 Hp Hc Ht Hh).
    eexists; split; [reflexivity|]. simpl. split.
    + rewrite length_app; simpl; lia.
    + apply hop_stack_nonempty, Hne.
Qed.

(** One transition, read off the loop states before and after it. *)
Lemma hop_step (t : nat) :
  (1 <= t < length rxncenter)%nat ->
  exists st0 prev curr top h0,
    hop_run rxncenter (t - 1) = Ok st0
    /\ nth_error rxncenter (t - 1) = Some prev
    /\ nth_error rxncenter t = Some curr
    /\ getitem_last (pdonor st0) = Ok top
    /\ length (hts st0) = t
    /\ nth_error (hts st0) (t - 1) = Some h0
    /\ hop_run rxncenter t
       = Ok {| hts := hts st0 ++ [h0 + hop_delta prev curr top];
               pdonor := hop_stack prev curr top (pdonor st0) |}.
Proof.
  intros Ht. destruct t as [|k]; [lia|].
  replace (S k - 1)%nat with k by lia.
  destruct (hop_run_total k) as (st & Hrun & Hlen & Hne); [lia|].
  destruct (nth_error rxncenter k) as [prev|] eqn:Hp;
    [|apply nth_error_None in Hp; lia].
  destruct (nth_error rxncenter (S k)) as [curr|] eqn:Hc;
    [|apply nth_error_None in Hc; lia].
  destruct (getitem_last_total _ Hne) as (top & Htop).
  destruct (nth_error (hts st) k) as [h0|] eqn:Hh;
    [|apply nth_error_None in Hh; lia].
  exists st, prev, curr, top, h0. repeat split; try assumption.
  rewrite hop_run_S, Hrun; simpl.
  apply hop_body_Ok; try assumption;
    replace (S k - 1)%nat with k by lia; assumption.
Qed.

Lemma hop_body_hts (st st' : hop_state) (i : nat) :
  hop_body rxncenter st i = Ok st' ->
  exists v, hts st' = hts st ++ [v].
Proof.
  unfold hop_body. intros H.
  repeat match type of H with
         | context [Py.bind ?c _] =>
             destruct c eqn:?; simpl in H; try discriminate
         end.
  inversion H; subst; simpl. eexists; reflexivity.
Qed.

(** Later states extend the [hts] of earlier ones. *)
Lemma hop_run_prefix (k d : nat) (st st' : hop_state) :
  hop_run rxncenter k = Ok st ->
  hop_run rxncenter (k + d) = Ok st' ->
  exists suffix, hts st' = hts st ++ suffix.
Proof.
  revert st'. induction d as [|d IH]; intros st' H H'.
  - rewrite Nat.add_0_r in H'. rewrite H in H'. inversion H'; subst.
    exists []. rewrite app_nil_r. reflexivity.
  - rewrite Nat.add_succ_r, hop_run_S in H'.
    destruct (hop_run rxncenter (k + d)) as [st1|e] eqn:E; [|discriminate].
    destruct (IH st1 H eq_refl) as (suf & Hsuf). simpl in H'.
    destruct (hop_body_hts _ _ _ H') as (v & Hv).
    exists (suf ++ [v]). rewrite Hv, Hsuf, app_assoc. reflexivity.
Qed.

Lemma eval_hop_function_run (ts : list Z) :
  eval_hop_function ts rxncenter
  = (st <- hop_run rxncenter (length ts - 1) ;; Ok (hts st)).
Proof.
  unfold eval_hop_function, hop_run.
  destruct (length ts) as [|n]; [reflexivity|].
  replace (S n - 1)%nat with n by lia. reflexivity.
Qed.

(** The output of the function at frame [t] is the entry the loop
    appended at iteration [t]. *)
Lemma eval_hop_function_nth (ts : list Z) (t : nat) (st : hop_state) :
  length ts = length rxncenter ->
  (t < length rxncenter)%nat ->
  hop_run rxncenter t = Ok st ->
  exists h, eval_hop_function ts rxncenter = Ok h
            /\ length h = length rxncenter
            /\ nth_error h t = nth_error (hts st) t.
Proof.
  intros Hlen Ht Hrun. rewrite eval_hop_function_run, Hlen.
  destruct (hop_run_total (length rxncenter - 1)) as (stT & HT & HlenT & _);
    [lia|].
  rewrite HT; simpl. exists (hts stT). split; [reflexivity|].
  split; [lia|].
  replace (length rxncenter - 1)%nat
    with (t + (length rxncenter - 1 - t))%nat in HT by lia.
  destruct (hop_run_prefix _ _ _ _ Hrun HT) as (suf & ->).
  destruct (hop_run_total t Ht) as (st2 & H2 & Hl2 & _).
  rewrite Hrun in H2; inversion H2; subst st2.
  rewrite nth_error_app1; [reflexivity | lia].
Qed.

End HopFacts.

Section HopClaims.

Import forward_hop.
Open Scope Z_scope.

Lemma donor_history_Ok (rxncenter : list Z) (k : nat) (st : hop_state) :
  hop_run rxncenter k = Ok st ->
  donor_history rxncenter k = Ok (pdonor st).
Proof. intros H. unfold donor_history. rewrite H. reflexivity. Qed.

(** The transition at frame [t] as seen in the returned list. *)
Lemma hop_transition (ts rxncenter : list Z) (t : nat) :
  length ts = length rxncenter ->
  (1 <= t < length rxncenter)%nat ->
  exists h prev curr stk top h0,
    eval_hop_function ts rxncenter = Ok h
    /\ length h = length rxncenter
    /\ nth_error rxncenter (t - 1) = Some prev
    /\ nth_error rxncenter t = Some curr
    /\ donor_history rxncenter (t - 1) = Ok stk
    /\ getitem_last stk = Ok top
    /\ nth_error h (t - 1) = Some h0
    /\ nth_error h t = Some (h0 + hop_delta prev curr top)
    /\ donor_history rxncenter t = Ok (hop_stack prev curr top stk).
Proof.
  intros Hlen Ht.
  destruct (hop_step rxncenter t Ht)
    as (st0 & prev & curr & top & h0 & H0 & Hp & Hc & Htop & Hl & Hh & H1).
  destruct (eval_hop_function_nth rxncenter ts (t - 1) st0 Hlen)
    as (h & He & Hlh & Hn0); [lia | exact H0 |].
  destruct (eval_hop_function_nth rxncenter ts t _ Hlen (proj2 Ht) H1)
    as (h' & He' & _ & Hn1).
  rewrite He in He'; inversion He'; subst h'.
  exists h, prev, curr, (pdonor st0), top, h0.
  repeat split; try assumption.
  - apply donor_history_Ok, H0.
  - congruence.
  - rewrite Hn1; simpl. rewrite nth_error_app2; [|lia].
    rewrite Hl, Nat.sub_diag. reflexivity.
  - apply (donor_history_Ok _ _ _ H1).
Qed.

Lemma eval_hop_function_head (ts rxncenter : list Z) :
  length ts = length rxncenter ->
  (1 <= length rxncenter)%nat ->
  exists h, eval_hop_function ts rxncenter = Ok h
            /\ length h = length rxncenter
            /\ nth_error h 0 = Some 0.
Proof.
  intros Hlen Hn.
  destruct (eval_hop_function_nth rxncenter ts 0 hop_init Hlen)
    as (h & He & Hl & H0); [lia | reflexivity |].
  exists h. repeat split; assumption.
Qed.

(** C1. For a center sequence of length T >= 1 (with as many time steps)
    [eval_hop_function] returns a list [h] of length T with [h[0] = 0];
    the donor history starts as the one-element list holding the sentinel
    0; and at every frame t in 1..T-1, with [prev] and [curr] the centers
    at t-1 and t and [top] the last element of the donor history before
    the transition: if [curr = prev] then [h[t] = h[t-1]] (history
    unchanged); else if [curr = top] then [h[t] = h[t-1] - 1] and the
    history is unchanged; otherwise [h[t] = h[t-1] + 1] and [prev] is
    appended to the history. *)
Theorem hop_classifier_transitions (ts rxncenter : list Z) :
  length ts = length rxncenter ->
  (1 <= length rxncenter)%nat ->
  exists h,
    eval_hop_function ts rxncenter = Ok h
    /\ length h = length rxncenter
    /\ nth_error h 0 = Some 0
    /\ donor_history rxncenter 0 = Ok [0]
    /\ forall t, (1 <= t < length rxncenter)%nat ->
         exists prev curr stk top h0 h1,
           nth_error rxncenter (t - 1) = Some prev
           /\ nth_error rxncenter t = Some curr
           /\ donor_history rxncenter (t - 1) = Ok stk
           /\ getitem_last stk = Ok top
           /\ nth_error h (t - 1) = Some h0
           /\ nth_error h t = Some h1
           /\ (curr = prev ->
               h1 = h0 /\ donor_history rxncenter t = Ok stk)
           /\ (curr <> prev -> curr = top ->
               h1 = h0 - 1 /\ donor_history rxncenter t = Ok stk)
           /\ (curr <> prev -> curr <> top ->
               h1 = h0 + 1
               /\ donor_history rxncenter t = Ok (stk ++ [prev])).
Proof.
  intros Hlen Hn.
  destruct (eval_hop_function_head ts rxncenter Hlen Hn) as (h & He & Hl & H0).
  exists h. repeat split; try assumption.
  intros t Ht.
  destruct (hop_transition ts rxncenter t Hlen Ht)
    as (h' & prev & curr & stk & top & h0 & He' & _ & Hp & Hc & Hs & Htop
        & Hh0 & Hh1 & Hs1).
  rewrite He in He'; inversion He'; subst h'.
  exists prev, curr, stk, top, h0, (h0 + hop_delta prev curr top).
  repeat split; try assumption; unfold hop_delta, hop_stack in *.
  - destruct (Z.eqb_spec prev curr); [lia | congruence].
  - destruct (Z.eqb_spec prev curr); [assumption | congruence].
  - destruct (Z.eqb_spec prev curr); [congruence|].
    destruct (Z.eqb_spec curr top); [lia | congruence].
  - destruct (Z.eqb_spec prev curr); [congruence|].
    destruct (Z.eqb_spec curr top); [assumption | congruence].
  - destruct (Z.eqb_spec prev curr); [congruence|].
    destruct (Z.eqb_spec curr top); [congruence | lia].
  - destruct (Z.eqb_spec prev curr); [congruence|].
    destruct (Z.eqb_spec curr top); [congruence | assumption].
Qed.

Lemma hop_classifier_transitions_witness :
  exists h,
    eval_hop_function [0; 1; 2; 3; 4] [1; 1; 2; 2; 1] = Ok h
    /\ h = [0; 0; 1; 1; 0].
Proof.
  destruct (hop_classifier_transitions [0; 1; 2; 3; 4] [1; 1; 2; 2; 1])
    as (h & He & _); [reflexivity | simpl; lia |].
  exists h. split; [exact He|].
  vm_compute in He. inversion He. reflexivity.
Defined.

(** C6. The backward test looks at the last donor only: at a transition
    where the current center differs from the previous center and from
    the last element of the donor history, yet occurs deeper in that
    history, the hop count goes up by one and the previous center is
    appended as a new donor.  For the centers [1,2,3,1] the function
    returns [0,1,2,3]. *)
Theorem deeper_donor_counts_forward
        (ts rxncenter : list Z) (t : nat) (prev curr top : Z)
        (stk : list Z) :
  length ts = length rxncenter ->
  (1 <= t < length rxncenter)%nat ->
  nth_error rxncenter (t - 1) = Some prev ->
  nth_error rxncenter t = Some curr ->
  donor_history rxncenter (t - 1) = Ok stk ->
  getitem_last stk = Ok top ->
  curr <> prev -> curr <> top -> In curr stk ->
  (exists h h0,
      eval_hop_function ts rxncenter = Ok h
      /\ nth_error h (t - 1) = Some h0
      /\ nth_error h t = Some (h0 + 1)
      /\ donor_history rxncenter t = Ok (stk ++ [prev]))
  /\ eval_hop_function [0; 1; 2; 3] [1; 2; 3; 1] = Ok [0; 1; 2; 3].
Proof.
  intros Hlen Ht Hp Hc Hs Htop Hne Hnt _. split; [|reflexivity].
  destruct (hop_transition ts rxncenter t Hlen Ht)
    as (h & prev' & curr' & stk' & top' & h0 & He & _ & Hp' & Hc' & Hs'
        & Htop' & Hh0 & Hh1 & Hs1).
  assert (prev' = prev) by congruence.
  assert (curr' = curr) by congruence.
  assert (stk' = stk) by congruence. subst.
  assert (top' = top) by congruence. subst.
  exists h, h0. unfold hop_delta, hop_stack in *.
  destruct (Z.eqb_spec prev curr); [congruence|].
  destruct (Z.eqb_spec curr top); [congruence|].
  repeat split; assumption.
Qed.

Lemma deeper_donor_counts_forward_witness :
  exists h h0,
    eval_hop_function [0; 1; 2; 3] [1; 2; 3; 1] = Ok h
    /\ nth_error h 2 = Some h0
    /\ nth_error h 3 = Some (h0 + 1)
    /\ donor_history [1; 2; 3; 1] 3 = Ok ([0; 1; 2] ++ [3]).
Proof.
  refine (proj1 (deeper_donor_counts_forward
                   [0; 1; 2; 3] [1; 2; 3; 1] 3 3 1 2 [0; 1; 2]
                   _ _ _ _ _ _ _ _ _)).
  - reflexivity.
  - simpl; lia.
  - reflexivity.
  - reflexivity.
  - reflexivity.
  - reflexivity.
  - lia.
  - lia.
  - simpl; tauto.
Defined.

End HopClaims.

Section HopInvariants.

Import forward_hop.
Open Scope Z_scope.

Lemma hop_delta_range (prev curr top : Z) :
  hop_delta prev curr top = -1 \/ hop_delta prev curr top = 0
  \/ hop_delta prev curr top = 1.
Proof.
  unfold hop_delta. destruct (prev =? curr); [tauto|].
  destruct (curr =? top); tauto.
Qed.

(** While the center has not changed, nothing has been counted and the
    donor history still holds the sentinel alone. *)
Lemma hop_constant_prefix (ts rxncenter : list Z) (c : Z) (t : nat) :
  length ts = length rxncenter ->
  (t < length rxncenter)%nat ->
  (forall s, (s <= t)%nat -> nth_error rxncenter s = Some c) ->
  exists h, eval_hop_function ts rxncenter = Ok h
            /\ nth_error h t = Some 0
            /\ donor_history rxncenter t = Ok [0].
Proof.
  intros Hlen. induction t as [|t IH]; intros Ht Hc.
  - destruct (eval_hop_function_head ts rxncenter Hlen) as (h & He & _ & H0);
      [lia|].
    exists h. repeat split; assumption.
  - destruct IH as (h & He & Hh & Hs); [lia | intros s Hs; apply Hc; lia |].
    destruct (hop_transition ts rxncenter (S t) Hlen)
      as (h' & prev & curr & stk & top & h0 & He' & _ & Hp & Hcu & Hs'
          & Htop & Hh0 & Hh1 & Hs1); [lia|].
    replace (S t - 1)%nat with t in * by lia.
    rewrite He in He'; inversion He'; subst h'.
    rewrite (Hc t) in Hp by lia. rewrite (Hc (S t)) in Hcu by lia.
    inversion Hp; inversion Hcu; subst prev curr.
    unfold hop_delta, hop_stack in *. rewrite Z.eqb_refl in *.
    exists h. repeat split; [assumption | | congruence].
    rewrite Hh1. f_equal. rewrite Hh in Hh0. inversion Hh0. lia.
Qed.

(** The first change of center is compared with the sentinel 0: it is
    counted forward exactly when the new center is not 0. *)
Lemma first_hop_against_sentinel
      (ts rxncenter : list Z) (c curr : Z) (t : nat) :
  length ts = length rxncenter ->
  (1 <= t < length rxncenter)%nat ->
  (forall s, (s < t)%nat -> nth_error rxncenter s = Some c) ->
  nth_error rxncenter t = Some curr ->
  curr <> c ->
  exists h, eval_hop_function ts rxncenter = Ok h
            /\ nth_error h (t - 1) = Some 0
            /\ nth_error h t = Some (if curr =? 0 then -1 else 1).
Proof.
  intros Hlen Ht Hc Hcu Hne.
  destruct (hop_constant_prefix ts rxncenter c (t - 1) Hlen)
    as (h & He & Hh & Hs); [lia | intros s Hs; apply Hc; lia |].
  destruct (hop_transition ts rxncenter t Hlen Ht)
    as (h' & prev & curr' & stk & top & h0 & He' & _ & Hp & Hcu' & Hs'
        & Htop & Hh0 & Hh1 & _).
  rewrite He in He'; inversion He'; subst h'.
  rewrite (Hc (t - 1)%nat) in Hp by lia.
  assert (prev = c) by congruence.
  assert (curr' = curr) by congruence.
  assert (stk = [0]) by congruence.
  assert (h0 = 0) by congruence. subst.
  assert (top = 0) by (vm_compute in Htop; congruence). subst.
  exists h. repeat split; [assumption | assumption |].
  rewrite Hh1. unfold hop_delta.
  destruct (Z.eqb_spec c curr); [congruence|].
  destruct (curr =? 0); reflexivity.
Qed.

(** C9. For a nonempty center sequence the returned list [h] has
    [h[0] = 0] and [h[t] - h[t-1]] in {-1, 0, 1} for every t >= 1;
    when all centers are equal, [h] is all zeros. *)
Theorem hop_count_increments (ts rxncenter : list Z) :
  length ts = length rxncenter ->
  rxncenter <> [] ->
  exists h,
    eval_hop_function ts rxncenter = Ok h
    /\ length h = length rxncenter
    /\ nth_error h 0 = Some 0
    /\ (forall t, (1 <= t < length rxncenter)%nat ->
          exists h0 h1,
            nth_error h (t - 1) = Some h0 /\ nth_error h t = Some h1
            /\ (h1 - h0 = -1 \/ h1 - h0 = 0 \/ h1 - h0 = 1))
    /\ ((exists c, rxncenter = repeat c (length rxncenter)) ->
        h = repeat 0 (length rxncenter)).
Proof.
  intros Hlen Hne.
  assert (Hn : (1 <= length rxncenter)%nat)
    by (destruct rxncenter; [congruence | simpl; lia]).
  destruct (eval_hop_function_head ts rxncenter Hlen Hn) as (h & He & Hl & H0).
  exists h. repeat split; try assumption.
  - intros t Ht.
    destruct (hop_transition ts rxncenter t Hlen Ht)
      as (h' & prev & curr & stk & top & h0 & He' & _ & _ & _ & _ & _
          & Hh0 & Hh1 & _).
    rewrite He in He'; inversion He'; subst h'.
    exists h0, (h0 + hop_delta prev curr top). repeat split; try assumption.
    destruct (hop_delta_range prev curr top) as [H|[H|H]]; lia.
  - intros (c & Hc). apply nth_error_ext. intros t.
    destruct (Nat.lt_ge_cases t (length rxncenter)) as [Ht|Ht].
    + rewrite nth_error_repeat by assumption.
      destruct (hop_constant_prefix ts rxncenter c t Hlen Ht)
        as (h' & He' & Hh & _).
      * intros s Hs. rewrite Hc. apply nth_error_repeat. lia.
      * congruence.
    + transitivity (@None Z); [|symmetry]; apply nth_error_None;
        [lia | rewrite repeat_length; lia].
Qed.

Lemma hop_count_increments_witness :
  exists h,
    eval_hop_function [0; 1; 2; 3] [5; 5; 5; 5] = Ok h
    /\ h = repeat 0 4.
Proof.
  destruct (hop_count_increments [0; 1; 2; 3] [5; 5; 5; 5])
    as (h & He & _ & _ & _ & Hc); [reflexivity | discriminate |].
  exists h. split; [exact He|].
  apply Hc. exists 5. reflexivity.
Defined.

(** C7 (defect). The donor history is seeded with the integer 0, which
    is also a possible center identifier.  For the centers [1, 0] the
    first (and only) change of center is counted as a backward hop: the
    function returns [0, -1] where a first hop to a new acceptor should
    give [0, 1]. *)
Theorem first_hop_to_center_zero :
  eval_hop_function [0; 1] [1; 0] = Ok [0; -1].
Proof. reflexivity. Qed.

End HopInvariants.

(** ** civec_pdf.py: the amplitude loop *)

Section AmplitudeFacts.

Import civec_pdf Spec.
Open Scope R_scope.

Lemma seen_step (p : list R) (st : option R * option R) (x : R) :
  seen p st -> seen (p ++ [x]) (second_largest_step st x).
Proof.
  destruct st as [[m1|] [m2|]]; simpl; intros H; try contradiction.
  - destruct H as (rest & HP & Hle & Hrest).
    destruct (Rge_dec x m1) as [Hx|Hx]; [|destruct (Rgt_dec x m2) as [Hy|Hy]].
    + exists (m2 :: rest). repeat split.
      * rewrite <- Permutation_cons_append. now apply perm_skip.
      * lra.
      * constructor; [lra|].
        eapply Forall_impl; [|exact Hrest]. simpl; intros; lra.
    + exists (m2 :: rest). repeat split.
      * rewrite <- Permutation_cons_append. rewrite HP. apply perm_swap.
      * lra.
      * constructor; [lra|].
        eapply Forall_impl; [|exact Hrest]. simpl; intros; lra.
    + exists (x :: rest). repeat split.
      * rewrite <- Permutation_cons_append. rewrite HP.
        rewrite perm_swap. apply perm_skip. apply perm_swap.
      * lra.
      * constructor; [lra | exact Hrest].
  - subst p. simpl.
    destruct (Rge_dec x m1) as [Hx|Hx].
    + exists []. repeat split; [apply perm_swap | lra | constructor].
    + exists []. repeat split; [reflexivity | lra | constructor].
  - subst p. reflexivity.
Qed.

Lemma seen_fold (l p : list R) (st : option R * option R) :
  seen p st -> seen (p ++ l) (fold_left second_largest_step l st).
Proof.
  revert p st. induction l as [|x l IH]; intros p st H; simpl.
  - rewrite app_nil_r. exact H.
  - replace (p ++ x :: l) with ((p ++ [x]) ++ l)
      by (rewrite <- app_assoc; reflexivity).
    apply IH, seen_step, H.
Qed.

Lemma second_largest_state (l : list R) :
  seen l (fold_left second_largest_step l (None, None)).
Proof. apply (seen_fold l [] (None, None)). reflexivity. Qed.

Lemma second_largest_top_two (l : list R) :
  (2 <= length l)%nat ->
  exists m1 m2, top_two l m1 m2 /\ second_largest l = Some m2.
Proof.
  intros Hl. pose proof (second_largest_state l) as H.
  unfold second_largest.
  destruct (fold_left second_largest_step l (None, None))
    as [[m1|] [m2|]]; simpl in *; try contradiction.
  - exists m1, m2. split; [exact H | reflexivity].
  - subst l. simpl in Hl. lia.
  - subst l. simpl in Hl. lia.
Qed.

Lemma second_largest_short (l : list R) :
  (length l < 2)%nat -> second_largest l = None.
Proof.
  destruct l as [|x [|y l]]; simpl; intros H; try lia; reflexivity.
Qed.

Lemma fold_max_spec (r : list R) (x : R) :
  let m := fold_left (fun m y => if Rgt_dec y m then y else m) r x in
  In m (x :: r) /\ Forall (fun y => y <= m) (x :: r).
Proof.
  revert x. induction r as [|y r IH]; intros x; simpl.
  - split; [left; reflexivity | constructor; [lra | constructor]].
  - destruct (Rgt_dec y x) as [Hy|Hy].
    + destruct (IH y) as (Hin & Hall). simpl in Hin. split; [tauto|].
      inversion Hall; subst. constructor; [lra | constructor; assumption].
    + destruct (IH x) as (Hin & Hall). simpl in Hin. split; [tauto|].
      inversion Hall; subst. constructor; [lra | constructor; [lra|assumption]].
Qed.

Lemma py_max_top_two (l : list R) (m1 m2 : R) :
  top_two l m1 m2 -> py_max l = Ok m1.
Proof.
  intros (rest & HP & Hle & Hrest).
  destruct l as [|x r]; [apply Permutation_nil in HP; discriminate|].
  simpl. f_equal.
  destruct (fold_max_spec r x) as (Hin & Hall).
  set (m := fold_left _ r x) in *.
  assert (H1 : m1 <= m).
  { rewrite Forall_forall in Hall. apply Hall.
    apply (Permutation_in _ (Permutation_sym HP)). left; reflexivity. }
  assert (H2 : m <= m1).
  { apply (Permutation_in _ HP) in Hin. destruct Hin as [<-|[<-|Hin]];
      [lra | lra |].
    rewrite Forall_forall in Hrest. specialize (Hrest _ Hin). lra. }
  lra.
Qed.

(** One frame with at least two amplitudes extends both arrays. *)
Lemma sample_body_Ok (st : list R * list R) (i : list R) :
  (2 <= length i)%nat ->
  exists m1 m2,
    top_two i m1 m2
    /\ sample_body st i = Ok (fst st ++ [m1 * m1], snd st ++ [m2 * m2]).
Proof.
  intros Hl. destruct (second_largest_top_two i Hl) as (m1 & m2 & Ht & Hs).
  exists m1, m2. split; [exact Ht|].
  unfold sample_body. rewrite (py_max_top_two _ _ _ Ht), Hs. reflexivity.
Qed.

(** One frame with fewer than two amplitudes raises. *)
Lemma sample_body_short (st : list R * list R) (i : list R) :
  (length i < 2)%nat ->
  sample_body st i
  = Raise (match i with [] => ValueError | _ :: _ => TypeError end).
Proof.
  destruct i as [|x [|y l]]; simpl; intros H; try lia; reflexivity.
Qed.

Lemma square_order (m1 m2 : R) :
  m2 <= m1 -> (m2 * m2 <= m1 * m1 <-> m1 = m2 \/ 0 <= m1 + m2).
Proof.
  intros H. split.
  - intros H'. destruct (Req_dec m1 m2) as [E|E]; [left; exact E|].
    right. assert (0 < m1 - m2) by lra. nra.
  - intros [->|H']; [lra | nra].
Qed.

Lemma top_two_nonneg (l : list R) (m1 m2 : R) :
  top_two l m1 m2 -> Forall (fun y => 0 <= y) l -> 0 <= m2 /\ m2 <= m1.
Proof.
  intros (rest & HP & Hle & _) Hall. split; [|exact Hle].
  rewrite Forall_forall in Hall. apply Hall.
  apply (Permutation_in _ (Permutation_sym HP)). right; left; reflexivity.
Qed.

End AmplitudeFacts.

Section AmplitudeClaims.

Import civec_pdf Spec.
Open Scope R_scope.

(** The loop over frames that all carry at least two amplitudes. *)
Lemma amplitude_samples_total (tmp : list (list R)) :
  Forall (fun i => (2 <= length i)%nat) tmp ->
  exists first second,
    amplitude_samples tmp = Ok (first, second)
    /\ length first = length tmp
    /\ length second = length tmp
    /\ forall k i, nth_error tmp k = Some i ->
         exists m1 m2,
           top_two i m1 m2
           /\ nth_error first k = Some (m1 * m1)
           /\ nth_error second k = Some (m2 * m2).
Proof.
  unfold amplitude_samples.
  induction tmp as [|i tmp IH] using rev_ind; intros Hall.
  - exists [], []. repeat split. intros [|k] i H; discriminate.
  - apply Forall_app in Hall. destruct Hall as (Hall & Hi).
    inversion Hi as [|? ? Hi2 _]; subst.
    destruct (IH Hall) as (first & second & He & Hlf & Hls & Hk).
    destruct (sample_body_Ok (first, second) i Hi2) as (m1 & m2 & Ht & Hb).
    rewrite for_each_snoc, He; simpl. rewrite Hb; simpl.
    exists (first ++ [m1 * m1]), (second ++ [m2 * m2]).
    split; [reflexivity|].
    rewrite !length_app; simpl.
    split; [lia|]. split; [lia|].
    intros k j Hj.
    destruct (Nat.lt_ge_cases k (length tmp)) as [Hlt|Hge].
    + rewrite nth_error_app1 in Hj by assumption.
      destruct (Hk k j Hj) as (n1 & n2 & Hn & Hf & Hs).
      exists n1, n2. split; [exact Hn|].
      rewrite !nth_error_app1 by lia. split; assumption.
    + rewrite nth_error_app2 in Hj by assumption.
      destruct (k - length tmp)%nat as [|d] eqn:E;
        [|destruct d; discriminate].
      simpl in Hj. inversion Hj; subst j.
      exists m1, m2. split; [exact Ht|].
      rewrite !nth_error_app2 by lia.
      replace (k - length first)%nat with 0%nat by lia.
      replace (k - length second)%nat with 0%nat by lia.
      split; reflexivity.
Qed.

(** C3 (amended). When every frame carries at least two amplitudes the
    loop returns two arrays with one entry per frame; at frame [k] the
    entries are [m1*m1] and [m2*m2] for the largest entry [m1] and the
    second-largest entry [m2] of the frame.  [m2*m2 >= 0] always;
    [m1*m1 >= m2*m2] holds exactly when [m1 = m2] or [m1 + m2 >= 0], and
    in particular whenever no amplitude of the frame is negative. *)
Theorem amplitude_samples_order (tmp : list (list R)) :
  Forall (fun i => (2 <= length i)%nat) tmp ->
  exists first second,
    amplitude_samples tmp = Ok (first, second)
    /\ length first = length tmp
    /\ length second = length tmp
    /\ forall k i, nth_error tmp k = Some i ->
         exists m1 m2,
           top_two i m1 m2
           /\ nth_error first k = Some (m1 * m1)
           /\ nth_error second k = Some (m2 * m2)
           /\ 0 <= m2 * m2
           /\ (m2 * m2 <= m1 * m1 <-> m1 = m2 \/ 0 <= m1 + m2)
           /\ (Forall (fun y => 0 <= y) i -> m2 * m2 <= m1 * m1).
Proof.
  intros Hall.
  destruct (amplitude_samples_total tmp Hall)
    as (first & second & He & Hlf & Hls & Hk).
  exists first, second.
  split; [exact He|]. split; [exact Hlf|]. split; [exact Hls|].
  intros k i H.
  destruct (Hk k i H) as (m1 & m2 & Ht & Hf & Hs).
  exists m1, m2.
  assert (Hle : m2 <= m1) by (destruct Ht as (? & _ & ? & _); assumption).
  split; [exact Ht|]. split; [exact Hf|]. split; [exact Hs|].
  split; [nra|]. split; [apply square_order, Hle|].
  intros Hnn. destruct (top_two_nonneg _ _ _ Ht Hnn). nra.
Qed.

Lemma amplitude_samples_order_witness :
  exists first second,
    amplitude_samples [[0.6; 0.8]; [0.7; 0.7; 0.1]] = Ok (first, second)
    /\ length first = 2%nat /\ length second = 2%nat.
Proof.
  destruct (amplitude_samples_order [[0.6; 0.8]; [0.7; 0.7; 0.1]])
    as (first & second & He & Hf & Hs & _).
  - repeat constructor.
  - exists first, second. repeat split; assumption.
Defined.

(** C3 (counterexample). For the single frame [0.5, -0.9] the largest
    entry is 0.5 and the second-largest is -0.9, so the first array holds
    0.25 and the second 0.81: the squared second maximum exceeds the
    squared maximum. *)
Lemma amplitude_order_fails_on_negative_entry :
  exists d s,
    amplitude_samples [[0.5; -0.9]] = Ok ([d], [s]) /\ d < s.
Proof.
  exists (0.5 * 0.5), (-0.9 * -0.9). split; [|lra].
  unfold amplitude_samples, sample_body, py_max, second_largest,
    second_largest_step, ge_none, gt_none; simpl.
  decide_reals. reflexivity.
Qed.

(** C5. If some frame carries fewer than two amplitudes the loop raises
    at the first such frame and returns no arrays: a [ValueError] (from
    [max]) when that frame is empty, a [TypeError] when it holds a single
    amplitude, where [second_largest] returns the unset [None] and
    squaring it raises instead of giving a number. *)
Theorem short_frame_raises (tmp : list (list R)) :
  Exists (fun i => (length i < 2)%nat) tmp ->
  exists pre i post,
    tmp = pre ++ i :: post
    /\ Forall (fun j => (2 <= length j)%nat) pre
    /\ (length i < 2)%nat
    /\ amplitude_samples tmp
       = Raise (match i with [] => ValueError | _ :: _ => TypeError end)
    /\ (forall x, i = [x] ->
          second_largest i = None
          /\ square (second_largest i) = Raise TypeError)
    /\ forall first second, amplitude_samples tmp <> Ok (first, second).
Proof.
  intros Hex.
  assert (Hsplit : exists pre i post,
             tmp = pre ++ i :: post
             /\ Forall (fun j => (2 <= length j)%nat) pre
             /\ (length i < 2)%nat).
  { induction tmp as [|j tmp IH]; [inversion Hex|].
    destruct (lt_dec (length j) 2) as [Hj|Hj].
    - exists [], j, tmp. repeat split; [constructor | exact Hj].
    - inversion Hex as [? ? H | ? ? H]; subst; [contradiction|].
      destruct (IH H) as (pre & i & post & -> & Hpre & Hi).
      exists (j :: pre), i, post. repeat split; [|exact Hi].
      constructor; [lia | exact Hpre]. }
  destruct Hsplit as (pre & i & post & -> & Hpre & Hi).
  assert (Hr : amplitude_samples (pre ++ i :: post)
               = Raise (match i with [] => ValueError | _ :: _ => TypeError end)).
  { destruct (amplitude_samples_total pre Hpre) as (f & s & He & _).
    unfold amplitude_samples in *.
    rewrite for_each_app, He; simpl.
    rewrite sample_body_short by exact Hi. reflexivity. }
  exists pre, i, post. repeat split; try assumption.
  - subst i. reflexivity.
  - subst i. reflexivity.
  - intros first second. rewrite Hr. discriminate.
Qed.

Lemma short_frame_raises_witness :
  amplitude_samples [[0.6; 0.8]; [1]; [0.7; 0.7]] = Raise TypeError.
Proof.
  destruct (short_frame_raises [[0.6; 0.8]; [1]; [0.7; 0.7]])
    as (pre & i & post & Hsplit & Hpre & Hi & Hr & _).
  - apply Exists_cons_tl, Exists_cons_hd. simpl; lia.
  - rewrite Hr. destruct i as [|x l]; [|reflexivity].
    exfalso.
    assert (Hin : In (@nil R) [[0.6; 0.8]; [1]; [0.7; 0.7]])
      by (rewrite Hsplit; apply in_elt).
    simpl in Hin. intuition discriminate.
Defined.

End AmplitudeClaims.

(** ** civec_pdf.py: the free-energy block *)

Section NumpyFacts.

Import civec_pdf.
Open Scope R_scope.

Lemma energy_factor_negative : - kb_kcal * 300.0 < 0.
Proof. unfold kb_kcal, kb. lra. Qed.

Lemma np_log_positive (d : R) : 0 < d -> np_log d = Fin (ln d).
Proof. intros H. unfold np_log. destruct (Rlt_dec 0 d); [reflexivity | lra]. Qed.

(** [-kb_kcal*300.0*log(d)] by the sign of the density [d]. *)
Lemma energy_of_density (d : R) :
  np_mul (Fin (- kb_kcal * 300.0)) (np_log d)
  = if Rlt_dec 0 d then Fin (- kb_kcal * 300.0 * ln d)
    else if Rlt_dec d 0 then NaN else PInf.
Proof.
  pose proof energy_factor_negative as Hc.
  unfold np_log. destruct (Rlt_dec 0 d); [reflexivity|].
  destruct (Rlt_dec d 0); [reflexivity|]. simpl. unfold scale_inf.
  destruct (Rlt_dec 0 (- kb_kcal * 300.0)); [lra|].
  destruct (Rlt_dec (- kb_kcal * 300.0) 0); [reflexivity | lra].
Qed.

Lemma linspace_exact_length (start stop : R) (num : nat) :
  length (linspace_exact start stop num) = num.
Proof.
  destruct num as [|[|n]]; simpl; try reflexivity.
  rewrite length_map, length_seq. reflexivity.
Qed.



Lemma arr_sub_negated (a b : list R) :
  arr_sub b a = map Ropp (arr_sub a b).
Proof.
  unfold arr_sub. revert b. induction a as [|x a IH]; intros [|y b];
    simpl; try reflexivity.
  rewrite IH. f_equal. lra.
Qed.

(** The builtin [min] on an array of finite values. *)
Lemma py_min_finite (r : R) (rs : list R) :
  exists m,
    py_min (map Fin (r :: rs)) = Ok (Fin m)
    /\ In m (r :: rs)
    /\ Forall (fun y => m <= y) (r :: rs).
Proof.
  simpl. revert r. induction rs as [|y rs IH]; intros r; simpl.
  - exists r. repeat split; [left; reflexivity | constructor; [lra|constructor]].
  - destruct (Rlt_dec y r) as [Hy|Hy].
    + destruct (IH y) as (m & He & Hin & Hall).
      exists m. split; [exact He|]. split; [simpl in *; tauto|].
      inversion Hall; subst.
      constructor; [lra | constructor; assumption].
    + destruct (IH r) as (m & He & Hin & Hall).
      exists m. split; [exact He|]. split; [simpl in *; tauto|].
      inversion Hall; subst.
      constructor; [lra | constructor; [lra | assumption]].
Qed.

Lemma py_min_total (v : npfloat) (l : list npfloat) :
  exists m, py_min (v :: l) = Ok m.
Proof. simpl. eexists; reflexivity. Qed.


(** The shift of an array of finite values. *)
Lemma shift_zero_finite (r : R) (rs : list R) :
  exists m,
    In m (r :: rs)
    /\ Forall (fun y => m <= y) (r :: rs)
    /\ shift_zero (map Fin (r :: rs))
       = Ok (map Fin (map (fun y => y + - m) (r :: rs))).
Proof.
  destruct (py_min_finite r rs) as (m & He & Hin & Hall).
  exists m. split; [exact Hin|]. split; [exact Hall|].
  unfold shift_zero. rewrite He; simpl. f_equal. f_equal.
  rewrite !map_map. reflexivity.
Qed.


End NumpyFacts.

Section FreeEnergyFacts.

Import civec_pdf.
Open Scope R_scope.

Variable linspace : R -> R -> nat -> list R.
Hypothesis linspace_length :
  forall start stop num, length (linspace start stop num) = num.
Variable gaussian_kde : list R -> R -> R.

(** The value the loop appends at the grid coordinate [x], read through
    [log_argument]. *)
Lemma pre_shift_as_map (genfe : bool) (nbins : nat) (first second : list R) :
  pre_shift_energy linspace gaussian_kde genfe nbins first second
  = map (fun x =>
           match log_argument gaussian_kde genfe first second x with
           | Some d => np_mul (Fin (- kb_kcal * 300.0)) (np_log d)
           | None => Fin 0.0
           end)
        (energy_grid linspace genfe nbins).
Proof.
  unfold pre_shift_energy, energy_grid, log_argument.
  destruct genfe; apply map_ext; intros x;
    unfold energy_single, energy_diff; [reflexivity|].
  destruct (Rlt_dec x (-0.04)); [reflexivity|].
  destruct (Rgt_dec x 0.04); reflexivity.
Qed.

Lemma energy_grid_length (genfe : bool) (nbins : nat) :
  length (energy_grid linspace genfe nbins)
  = if genfe then nbins else (2 * nbins)%nat.
Proof. unfold energy_grid. destruct genfe; apply linspace_length. Qed.

Lemma pre_shift_length (genfe : bool) (nbins : nat) (first second : list R) :
  length (pre_shift_energy linspace gaussian_kde genfe nbins first second)
  = length (energy_grid linspace genfe nbins).
Proof. rewrite pre_shift_as_map. apply length_map. Qed.

Lemma pre_shift_nonempty (genfe : bool) (nbins : nat) (first second : list R) :
  (1 <= nbins)%nat ->
  exists v l,
    pre_shift_energy linspace gaussian_kde genfe nbins first second = v :: l.
Proof.
  intros Hn.
  pose proof (pre_shift_length genfe nbins first second) as Hl.
  rewrite energy_grid_length in Hl.
  destruct (pre_shift_energy linspace gaussian_kde genfe nbins first second)
    as [|v l].
  - destruct genfe; simpl in Hl; lia.
  - exists v, l. reflexivity.
Qed.

Lemma pre_shift_nth (genfe : bool) (nbins : nat) (first second : list R)
      (k : nat) (x : R) :
  nth_error (energy_grid linspace genfe nbins) k = Some x ->
  nth_error (pre_shift_energy linspace gaussian_kde genfe nbins first second)
            k
  = Some (match log_argument gaussian_kde genfe first second x with
          | Some d => np_mul (Fin (- kb_kcal * 300.0)) (np_log d)
          | None => Fin 0.0
          end).
Proof.
  intros H. rewrite pre_shift_as_map, nth_error_map, H. reflexivity.
Qed.




(** C4 (amended). The block makes no test on the density and, on a
    nonempty grid, never raises: it returns a profile in either mode.
    Where the density is 0 at a grid coordinate whose logarithm is taken
    the value before the shift is [+inf]; where it is negative the value
    is NaN; in both cases the returned profile holds a non-finite value
    at that coordinate. *)
Theorem nonpositive_density_not_signalled
        (genfe genfed : bool) (nbins : nat) (first second : list R) :
  genfe || genfed = true ->
  (1 <= nbins)%nat ->
  let before :=
    pre_shift_energy linspace gaussian_kde genfe nbins first second in
  exists energy,
    free_energy_profile linspace gaussian_kde genfe genfed nbins first second
    = Ok (Some energy)
    /\ length energy = length (energy_grid linspace genfe nbins)
    /\ forall k x d,
         nth_error (energy_grid linspace genfe nbins) k = Some x ->
         log_argument gaussian_kde genfe first second x = Some d ->
         d <= 0 ->
         exists v w,
           nth_error before k = Some v
           /\ nth_error energy k = Some w
           /\ (d = 0 -> v = PInf)
           /\ (d < 0 -> v = NaN)
           /\ ~ is_finite w.
Proof.
  intros Hmode Hn before. subst before.
  destruct (pre_shift_nonempty genfe nbins first second Hn)
    as (v0 & l & Hne).
  destruct (py_min_total v0 l) as (minfe & Hmin).
  unfold free_energy_profile, shift_zero. rewrite Hmode, Hne, Hmin.
  cbn [Py.bind]. rewrite <- Hne.
  eexists. split; [reflexivity|].
  split; [rewrite length_map; apply pre_shift_length|].
  intros k x d Hx Hd Hle.
  pose proof (pre_shift_nth genfe nbins first second k x Hx) as Hv.
  rewrite Hd, energy_of_density in Hv.
  destruct (Rlt_dec 0 d) as [Hpos|_]; [lra|].
  eexists. eexists. split; [exact Hv|].
  split; [rewrite nth_error_map, Hv; reflexivity|].
  destruct (Rlt_dec d 0) as [Hneg|Hnneg].
  - split; [intros; lra|]. split; [reflexivity|]. simpl. tauto.
  - split; [reflexivity|]. split; [intros; lra|].
    destruct minfe; simpl; tauto.
Qed.

End FreeEnergyFacts.

Section FreeEnergyInstances.

Import civec_pdf.
Open Scope R_scope.




Lemma nonpositive_density_not_signalled_witness :
  exists energy,
    free_energy_profile linspace_exact (fun _ _ => 0)
                        true false 1 [0.64] [0.36]
    = Ok (Some energy).
Proof.
  destruct (nonpositive_density_not_signalled
              linspace_exact linspace_exact_length
              (fun _ _ => 0) true false 1 [0.64] [0.36])
    as (energy & He & _).
  - reflexivity.
  - lia.
  - exists energy. exact He.
Defined.

(** C4 (counterexample). Single-coordinate mode on the two-point grid
    [0, 1] with a density that is 0 below 0.5 and 1 from there on: the
    density is 0 at the grid coordinate 0, no error is raised, and the
    returned profile is [+inf, 0]. *)
Lemma zero_density_gives_infinite_energy :
  let kde := fun (_ : list R) (x : R) => if Rlt_dec x 0.5 then 0 else 1 in
  nth_error (energy_grid linspace_exact true 2) 0
  = Some (0 + INR 0 * ((1 - 0) / INR 1))
  /\ log_argument kde true [0.64] [0.36] (0 + INR 0 * ((1 - 0) / INR 1))
     = Some 0
  /\ free_energy_profile linspace_exact kde true false 2 [0.64] [0.36]
     = Ok (Some [PInf; Fin 0]).
Proof.
  intros kde. subst kde.
  split; [reflexivity|]. split.
  - unfold log_argument. cbn [INR]. decide_reals. reflexivity.
  - unfold free_energy_profile, pre_shift_energy, linspace_exact,
      energy_single.
    cbn [orb map seq Nat.sub INR].
    rewrite !energy_of_density. decide_reals.
    unfold shift_zero, py_min. cbn [fold_left np_lt Py.bind map np_neg np_add].
    rewrite ln_1. do 5 f_equal. ring.
Qed.

End FreeEnergyInstances.

(** ** hendersonhasselbalch.py *)

Section HendersonHasselbalchClaims.

Import hendersonhasselbalch.
Open Scope R_scope.

Lemma ka1_positive : 0 < ka1.
Proof. unfold ka1. lra. Qed.

Lemma ka2_positive : 0 < ka2.
Proof. unfold ka2. lra. Qed.

Lemma h3o_positive (ph : R) : 0 < Rpower 10 (- ph).
Proof. unfold Rpower. apply exp_pos. Qed.

Lemma denominator_positive (h3o : R) :
  0 < h3o -> 0 < h3o * h3o + h3o * ka1 + ka1 * ka2.
Proof.
  intros H. pose proof ka1_positive. pose proof ka2_positive.
  assert (0 < h3o * h3o) by (apply Rmult_lt_0_compat; assumption).
  assert (0 < h3o * ka1) by (apply Rmult_lt_0_compat; assumption).
  assert (0 < ka1 * ka2) by (apply Rmult_lt_0_compat; assumption).
  lra.
Qed.

(** C10. For every pH, with [h3o = 10**(-ph) > 0] and the positive
    constants [ka1], [ka2], the three fractions computed in the loop are
    [h3o^2], [h3o*ka1] and [ka1*ka2] over the common positive denominator
    [h3o^2 + h3o*ka1 + ka1*ka2], and they add up to exactly 1. *)
Theorem species_fractions_sum (ph : R) :
  let h3o := Rpower 10 (- ph) in
  let den := h3o * h3o + h3o * ka1 + ka1 * ka2 in
  0 < h3o /\ 0 < ka1 /\ 0 < ka2 /\ 0 < den
  /\ species_fractions ph
     = (h3o * h3o / den, h3o * ka1 / den, ka1 * ka2 / den)
  /\ h3o * h3o / den + h3o * ka1 / den + ka1 * ka2 / den = 1.
Proof.
  intros h3o den.
  assert (Hh : 0 < h3o) by apply h3o_positive.
  assert (Hd : 0 < den) by (apply denominator_positive; exact Hh).
  repeat split; try assumption.
  - apply ka1_positive.
  - apply ka2_positive.
  - unfold den. field. fold den. lra.
Qed.

End HendersonHasselbalchClaims.

(** * Further properties of the code *)

(** ** forward_hop.py: invariants of the hop function *)

Section HopInduction.

Import forward_hop.
Open Scope Z_scope.

Variables ts rxncenter : list Z.
Hypothesis aligned : length ts = length rxncenter.

(** A property [P t c h stk] of the frame number, the center, the hop count
    and the donor list that holds at frame 0 and is kept by the transition
    rule holds at every frame of the returned list. *)
Lemma hop_invariant (P : nat -> Z -> Z -> list Z -> Prop) :
  (forall c, nth_error rxncenter 0 = Some c -> P 0%nat c 0 [0]) ->
  (forall t prev curr top h0 stk,
      (1 <= t < length rxncenter)%nat ->
      nth_error rxncenter (t - 1) = Some prev ->
      nth_error rxncenter t = Some curr ->
      getitem_last stk = Ok top ->
      P (t - 1)%nat prev h0 stk ->
      P t curr (h0 + hop_delta prev curr top)
        (hop_stack prev curr top stk)) ->
  forall t, (t < length rxncenter)%nat ->
    exists h c ht stk,
      eval_hop_function ts rxncenter = Ok h
      /\ length h = length rxncenter
      /\ nth_error rxncenter t = Some c
      /\ nth_error h t = Some ht
      /\ donor_history rxncenter t = Ok stk
      /\ P t c ht stk.
Proof.
  intros Hinit Hstep. induction t as [|t IH]; intros Ht.
  - destruct (eval_hop_function_head ts rxncenter aligned) as (h & He & Hl & H0);
      [lia|].
    destruct (nth_error rxncenter 0) as [c|] eqn:Hc;
      [|apply nth_error_None in Hc; lia].
    exists h, c, 0, [0]. repeat split; try assumption.
    apply Hinit. reflexivity.
  - destruct IH as (h & c & ht & stk & He & Hl & Hc & Hh & Hs & HP); [lia|].
    destruct (hop_transition ts rxncenter (S t) aligned)
      as (h' & prev & curr & stk' & top & h0 & He' & _ & Hp & Hcu & Hs'
          & Htop & Hh0 & Hh1 & Hs1); [lia|].
    replace (S t - 1)%nat with t in * by lia.
    rewrite He in He'; inversion He'; subst h'.
    assert (prev = c) by congruence.
    assert (stk' = stk) by congruence.
    assert (h0 = ht) by congruence. subst.
    exists h, curr, (ht + hop_delta c curr top), (hop_stack c curr top stk).
    repeat split; try assumption.
    apply (Hstep (S t) c curr top ht stk); try assumption; try lia;
      replace (S t - 1)%nat with t by lia; assumption.
Qed.

(** The same, read on every entry of the returned list. *)
Lemma hop_invariant_all (Q : Z -> Prop) (P : nat -> Z -> Z -> list Z -> Prop) :
  Q 0 ->
  (forall t c h stk, P t c h stk -> Q h) ->
  (forall c, nth_error rxncenter 0 = Some c -> P 0%nat c 0 [0]) ->
  (forall t prev curr top h0 stk,
      (1 <= t < length rxncenter)%nat ->
      nth_error rxncenter (t - 1) = Some prev ->
      nth_error rxncenter t = Some curr ->
      getitem_last stk = Ok top ->
      P (t - 1)%nat prev h0 stk ->
      P t curr (h0 + hop_delta prev curr top)
        (hop_stack prev curr top stk)) ->
  exists h, eval_hop_function ts rxncenter = Ok h /\ Forall Q h.
Proof.
  intros HQ0 HPQ Hinit Hstep.
  destruct (Nat.eq_dec (length rxncenter) 0) as [Hz|Hnz].
  - assert (Hts : ts = []) by (apply length_zero_iff_nil; congruence).
    exists [0]. split; [rewrite Hts; reflexivity|].
    constructor; [exact HQ0 | constructor].
  - destruct (eval_hop_function_head ts rxncenter aligned) as (h & He & Hl & _);
      [lia|].
    exists h. split; [exact He|].
    apply Forall_forall. intros v Hv.
    apply In_nth_error in Hv. destruct Hv as (t & Hv).
    assert (Ht : (t < length rxncenter)%nat).
    { rewrite <- Hl. apply nth_error_Some. congruence. }
    destruct (hop_invariant P Hinit Hstep t Ht)
      as (h' & c & ht & stk & He' & _ & _ & Hh & _ & HP).
    rewrite He in He'; inversion He'; subst h'.
    assert (v = ht) by congruence. subst. eapply HPQ, HP.
Qed.

End HopInduction.

Section HopBounds.

Import forward_hop Trajectory.
Open Scope Z_scope.

Lemma getitem_last_inj {A : Type} (l : list A) (a b : A) :
  getitem_last l = Ok a -> getitem_last l = Ok b -> a = b.
Proof. intros Ha Hb. rewrite Ha in Hb. inversion Hb. reflexivity. Qed.

(** The returned list, once each of its entries is known. *)
Lemma hop_output_ext (ts rxncenter : list Z) (f : nat -> Z) :
  length ts = length rxncenter ->
  (1 <= length rxncenter)%nat ->
  (forall t, (t < length rxncenter)%nat ->
     exists h, eval_hop_function ts rxncenter = Ok h
               /\ nth_error h t = Some (f t)) ->
  eval_hop_function ts rxncenter = Ok (map f (seq 0 (length rxncenter))).
Proof.
  intros Hlen Hn Hf.
  destruct (eval_hop_function_head ts rxncenter Hlen Hn) as (h & He & Hl & _).
  rewrite He. f_equal. apply nth_error_ext. intros t.
  rewrite nth_error_map, nth_error_seq.
  destruct (Nat.ltb_spec t (length rxncenter)) as [Ht|Ht].
  - destruct (Hf t Ht) as (h' & He' & Hh). simpl. congruence.
  - apply nth_error_None. lia.
Qed.

(** X1. The hop count never falls below -1, and it never falls below 0
    when no center carries the identifier 0 that seeds the donor list. *)
Theorem hop_count_lower_bound (ts rxncenter : list Z) :
  length ts = length rxncenter ->
  exists h,
    eval_hop_function ts rxncenter = Ok h
    /\ Forall (fun v => -1 <= v) h
    /\ (~ In 0 rxncenter -> Forall (fun v => 0 <= v) h).
Proof.
  intros Hlen.
  destruct (hop_invariant_all ts rxncenter Hlen (fun v => -1 <= v)
              (fun _ c h stk => -1 <= h /\ (h = -1 -> getitem_last stk = Ok c)))
    as (h & He & Hall).
  - lia.
  - intros t c v stk (H & _). exact H.
  - intros c _. split; [lia | intros H; lia].
  - intros t prev curr top h0 stk _ _ _ Htop (Hlo & Hm).
    unfold hop_delta, hop_stack.
    destruct (Z.eqb_spec prev curr) as [->|Hne].
    + split; [lia | intros H; apply Hm; lia].
    + destruct (Z.eqb_spec curr top) as [->|Hnt].
      * assert (h0 <> -1).
        { intros E. apply Hne. apply (getitem_last_inj stk); [apply Hm, E|exact Htop]. }
        split; [lia | intros _; exact Htop].
      * split; [lia | intros H; lia].
  - exists h. split; [exact He|]. split; [exact Hall|].
    intros Hnz.
    destruct (hop_invariant_all ts rxncenter Hlen (fun v => 0 <= v)
                (fun _ c h stk =>
                   0 <= h /\ (h = 0 -> getitem_last stk = Ok c
                                       \/ getitem_last stk = Ok 0)))
      as (h' & He' & Hall').
    + lia.
    + intros t c v stk (H & _). exact H.
    + intros c _. split; [lia | intros _; right; reflexivity].
    + intros t prev curr top h0 stk _ _ Hcu Htop (Hlo & Hm).
      assert (Hc0 : curr <> 0)
        by (intros ->; apply Hnz; eapply nth_error_In; exact Hcu).
      unfold hop_delta, hop_stack.
      destruct (Z.eqb_spec prev curr) as [->|Hne].
      * split; [lia | intros H; apply Hm; lia].
      * destruct (Z.eqb_spec curr top) as [->|Hnt].
        -- assert (h0 <> 0).
           { intros E. destruct (Hm E) as [H|H].
             - apply Hne. apply (getitem_last_inj stk); assumption.
             - apply Hc0. apply (getitem_last_inj stk); assumption. }
           split; [lia | intros _; left; exact Htop].
        -- split; [lia | intros H; lia].
    + rewrite He in He'; inversion He'; subst h'. exact Hall'.
Qed.

Lemma hop_count_lower_bound_witness :
  exists h,
    eval_hop_function [0; 1; 2; 3] [1; 0; 1; 0] = Ok h
    /\ Forall (fun v => -1 <= v) h.
Proof.
  destruct (hop_count_lower_bound [0; 1; 2; 3] [1; 0; 1; 0])
    as (h & He & Hall & _); [reflexivity|].
  exists h. split; assumption.
Defined.

(** X2. At every frame [t] the donor list is the sentinel 0 followed by at
    most [t] identifiers, each of them a center of the trajectory, and the
    hop count is at most the number of donors pushed, hence at most [t]. *)
Theorem donor_history_shape (ts rxncenter : list Z) (t : nat) :
  length ts = length rxncenter ->
  (t < length rxncenter)%nat ->
  exists h ht pushed,
    eval_hop_function ts rxncenter = Ok h
    /\ nth_error h t = Some ht
    /\ donor_history rxncenter t = Ok (0 :: pushed)
    /\ (length pushed <= t)%nat
    /\ Forall (fun d => In d rxncenter) pushed
    /\ ht <= Z.of_nat (length pushed)
    /\ ht <= Z.of_nat t.
Proof.
  intros Hlen Ht.
  destruct (hop_invariant ts rxncenter Hlen
              (fun t _ h stk =>
                 exists pushed,
                   stk = 0 :: pushed
                   /\ (length pushed <= t)%nat
                   /\ Forall (fun d => In d rxncenter) pushed
                   /\ h <= Z.of_nat (length pushed)))
    with (t := t)
    as (h & c & ht & stk & He & _ & _ & Hh & Hs & pushed & -> & Hlp & Hin & Hle).
  - intros c _. exists []. repeat split; [simpl; lia | constructor | simpl; lia].
  - intros t' prev curr top h0 stk Ht' Hp _ _ (pushed & -> & Hlp & Hin & Hle).
    unfold hop_delta, hop_stack.
    destruct (prev =? curr); [|destruct (curr =? top)].
    + exists pushed. repeat split; [lia | exact Hin | lia].
    + exists pushed. repeat split; [lia | exact Hin | lia].
    + exists (pushed ++ [prev]). rewrite length_app. simpl.
      repeat split; [lia | | lia].
      apply Forall_app. split; [exact Hin|].
      constructor; [|constructor]. eapply nth_error_In; exact Hp.
  - exact Ht.
  - exists h, ht, pushed. repeat split; try assumption. lia.
Qed.

Lemma donor_history_shape_witness :
  exists pushed, donor_history [1; 2; 1; 3] 3 = Ok (0 :: pushed).
Proof.
  destruct (donor_history_shape [0; 1; 2; 3] [1; 2; 1; 3] 3)
    as (h & ht & pushed & _ & _ & Hs & _); [reflexivity | simpl; lia |].
  exists pushed. exact Hs.
Defined.

(** X3. The donor list is append-only: the list at a frame is a prefix
    of the list at every later frame. *)
Theorem donor_history_append_only (rxncenter : list Z) (t t' : nat) :
  (t <= t' < length rxncenter)%nat ->
  exists stk more,
    donor_history rxncenter t = Ok stk
    /\ donor_history rxncenter t' = Ok (stk ++ more).
Proof.
  intros (Hle & Hlt).
  assert (Hd : exists d, t' = (t + d)%nat) by (exists (t' - t)%nat; lia).
  destruct Hd as (d & ->). clear Hle. revert Hlt.
  induction d as [|d IH]; intros Hlt.
  - destruct (hop_run_total rxncenter t) as (st & Hrun & _); [lia|].
    exists (pdonor st), []. rewrite Nat.add_0_r, app_nil_r.
    split; apply donor_history_Ok, Hrun.
  - destruct IH as (stk & more & Hs & Hs'); [lia|].
    destruct (hop_step rxncenter (t + S d))
      as (st0 & prev & curr & top & h0 & H0 & _ & _ & _ & _ & _ & H1); [lia|].
    replace (t + S d - 1)%nat with (t + d)%nat in H0 by lia.
    rewrite (donor_history_Ok _ _ _ H0) in Hs'. inversion Hs' as [Hpd].
    exists stk. rewrite (donor_history_Ok _ _ _ H1). simpl.
    unfold hop_stack. rewrite Hpd.
    destruct (prev =? curr); [|destruct (curr =? top)].
    + exists more. split; [exact Hs | reflexivity].
    + exists more. split; [exact Hs | reflexivity].
    + exists (more ++ [prev]). split; [exact Hs|]. rewrite app_assoc. reflexivity.
Qed.

Lemma donor_history_append_only_witness :
  exists stk more,
    donor_history [1; 2; 1; 3] 1 = Ok stk
    /\ donor_history [1; 2; 1; 3] 3 = Ok (stk ++ more).
Proof.
  apply (donor_history_append_only [1; 2; 1; 3] 1 3). simpl; lia.
Defined.

End HopBounds.

Section HopPatterns.

Import forward_hop Trajectory.
Open Scope Z_scope.

Lemma alternating_length (a b : Z) (n : nat) :
  length (alternating a b n) = n.
Proof.
  revert a b. induction n as [|n IH]; intros a b; simpl;
    [reflexivity | rewrite IH; reflexivity].
Qed.

Lemma alternating_nth (a b : Z) (n t : nat) :
  (t < n)%nat ->
  nth_error (alternating a b n) t = Some (if Nat.even t then a else b).
Proof.
  revert a b t. induction n as [|n IH]; intros a b t Ht; [lia|].
  destruct t as [|t]; [reflexivity|]. simpl nth_error.
  rewrite IH by lia. rewrite Nat.even_succ, <- Nat.negb_even.
  destruct (Nat.even t); reflexivity.
Qed.

(** X4. A proton that oscillates between two sites [a] and [b] (with [b]
    different from [a] and from the sentinel 0) is counted forward and
    backward in turn: the hop counts are 0, 1, 0, 1, ... *)
Theorem oscillation_nets_zero (ts : list Z) (a b : Z) (n : nat) :
  a <> b -> b <> 0 ->
  length ts = n -> (1 <= n)%nat ->
  eval_hop_function ts (alternating a b n) = Ok (parity_counts n).
Proof.
  intros Hab Hb Hlen Hn.
  pose proof (alternating_length a b n) as Hl.
  unfold parity_counts. rewrite <- Hl at 2.
  apply hop_output_ext; [congruence | lia |].
  intros t Ht.
  destruct (hop_invariant ts (alternating a b n) ltac:(congruence)
              (fun t _ h stk =>
                 h = (if Nat.even t then 0 else 1)
                 /\ (t = 0%nat -> stk = [0])
                 /\ ((1 <= t)%nat -> getitem_last stk = Ok a)))
    with (t := t)
    as (h & c & ht & stk & He & _ & _ & Hh & _ & -> & _).
  - intros c _. repeat split. lia.
  - intros t' prev curr top h0 stk Ht' Hp Hc Htop (-> & H0 & H1).
    rewrite Hl in Ht'.
    rewrite alternating_nth in Hp, Hc by lia.
    destruct t' as [|t']; [lia|].
    replace (S t' - 1)%nat with t' in * by lia.
    rewrite Nat.even_succ, <- Nat.negb_even in *.
    unfold hop_delta, hop_stack.
    destruct (Nat.even t') eqn:Ev; simpl in Hp, Hc;
      inversion Hp; inversion Hc; subst prev curr; simpl negb; cbv iota.
    + assert (Hbt : b <> top).
      { destruct t' as [|t'].
        - rewrite (H0 eq_refl) in Htop. inversion Htop. exact Hb.
        - intros ->. apply Hab.
          apply (getitem_last_inj stk); [apply H1; lia | exact Htop]. }
      destruct (Z.eqb_spec a b); [contradiction|].
      destruct (Z.eqb_spec b top); [contradiction|].
      repeat split; [lia|]. intros _. apply getitem_last_snoc.
    + assert (t' <> 0%nat) by (intros ->; discriminate).
      assert (top = a)
        by (apply (getitem_last_inj stk); [exact Htop | apply H1; lia]).
      subst top.
      destruct (Z.eqb_spec b a); [congruence|].
      rewrite Z.eqb_refl. repeat split; [lia|]. intros _. exact Htop.
  - exact Ht.
  - exists h. split; assumption.
Qed.

Lemma oscillation_nets_zero_witness :
  eval_hop_function [0; 1; 2; 3; 4] (alternating 7 9 5) = Ok [0; 1; 0; 1; 0].
Proof.
  apply (oscillation_nets_zero [0; 1; 2; 3; 4] 7 9 5); [lia | lia | reflexivity | lia].
Defined.

(** X5. When the proton never visits a site twice and no site carries the
    identifier 0, every change of center is counted forward: the hop count
    at frame [t] is [t]. *)
Theorem directional_chain_counts_frames (ts rxncenter : list Z) :
  NoDup rxncenter -> ~ In 0 rxncenter ->
  length ts = length rxncenter ->
  (1 <= length rxncenter)%nat ->
  eval_hop_function ts rxncenter = Ok (frame_counts (length rxncenter)).
Proof.
  intros Hnd Hnz Hlen Hn.
  apply hop_output_ext; [exact Hlen | exact Hn |].
  intros t Ht.
  destruct (hop_invariant ts rxncenter Hlen
              (fun t _ h stk =>
                 h = Z.of_nat t
                 /\ (t = 0%nat -> stk = [0])
                 /\ ((1 <= t)%nat ->
                     exists d, nth_error rxncenter (t - 1) = Some d
                               /\ getitem_last stk = Ok d)))
    with (t := t)
    as (h & c & ht & stk & He & _ & _ & Hh & _ & -> & _).
  - intros c _. repeat split. lia.
  - intros t' prev curr top h0 stk Ht' Hp Hc Htop (-> & H0 & H1).
    assert (Hpc : prev <> curr).
    { intros ->. rewrite <- Hc in Hp.
      apply (proj1 (NoDup_nth_error _) Hnd) in Hp; lia. }
    assert (Hct : curr <> top).
    { intros ->. destruct (Nat.eq_dec (t' - 1) 0) as [E|E].
      - rewrite (H0 E) in Htop. inversion Htop. subst top.
        apply Hnz. eapply nth_error_In; exact Hc.
      - destruct H1 as (d & Hd & Hld); [lia|].
        assert (d = top) by (apply (getitem_last_inj stk); assumption).
        subst d. rewrite <- Hc in Hd.
        apply (proj1 (NoDup_nth_error _) Hnd) in Hd; lia. }
    unfold hop_delta, hop_stack.
    destruct (Z.eqb_spec prev curr); [contradiction|].
    destruct (Z.eqb_spec curr top); [contradiction|].
    repeat split; [lia | lia |].
    intros _. exists prev. split; [exact Hp | apply getitem_last_snoc].
  - exact Ht.
  - exists h. split; assumption.
Qed.

Lemma directional_chain_counts_frames_witness :
  eval_hop_function [0; 1; 2; 3] [4; 8; 15; 16] = Ok [0; 1; 2; 3].
Proof.
  apply (directional_chain_counts_frames [0; 1; 2; 3] [4; 8; 15; 16]).
  - repeat constructor; simpl; intuition lia.
  - simpl; intuition lia.
  - reflexivity.
  - simpl; lia.
Defined.

End HopPatterns.

(** ** forward_hop.py: lengths, prefixes and relabelling *)

Section HopInputs.

Import forward_hop.
Open Scope Z_scope.

Lemma for_each_ext_in {S X : Type} (body body' : S -> X -> result S)
      (xs : list X) (st : S) :
  (forall s x, In x xs -> body s x = body' s x) ->
  for_each body xs st = for_each body' xs st.
Proof.
  revert st. induction xs as [|x xs IH]; intros st H; simpl; [reflexivity|].
  rewrite (H st x) by (left; reflexivity).
  destruct (body' st x) as [st'|e]; simpl; [|reflexivity].
  apply IH. intros s y Hy. apply H. right; exact Hy.
Qed.

Lemma hop_body_ext (rx rx' : list Z) (st : hop_state) (i : nat) :
  nth_error rx (i - 1) = nth_error rx' (i - 1) ->
  nth_error rx i = nth_error rx' i ->
  hop_body rx st i = hop_body rx' st i.
Proof.
  intros H1 H2. unfold hop_body, getitem. rewrite H1, H2. reflexivity.
Qed.

(** The loop over [range(1, n)] reads the centers below [n] only. *)
Lemma hop_loop_agree (rx rx' : list Z) (n : nat) (st : hop_state) :
  (forall i, (i < n)%nat -> nth_error rx i = nth_error rx' i) ->
  for_each (hop_body rx) (range 1 n) st
  = for_each (hop_body rx') (range 1 n) st.
Proof.
  intros H. apply for_each_ext_in. intros s i Hi.
  unfold range in Hi. apply in_seq in Hi.
  apply hop_body_ext; apply H; lia.
Qed.

Lemma firstn_agree (rx : list Z) (n i : nat) :
  (i < n)%nat -> nth_error (firstn n rx) i = nth_error rx i.
Proof.
  intros Hi. rewrite nth_error_firstn.
  destruct (Nat.ltb_spec i n); [reflexivity | lia].
Qed.

(** X6. With fewer time steps than centers the surplus centers are never
    read: the result is that of the trajectory cut to the number of time
    steps; it starts with 0 and has one entry per time step (the single
    entry 0 when there is no time step at all). *)
Theorem surplus_centers_ignored (ts rxncenter : list Z) :
  (length ts <= length rxncenter)%nat ->
  eval_hop_function ts rxncenter
  = eval_hop_function ts (firstn (length ts) rxncenter)
  /\ exists h,
       eval_hop_function ts rxncenter = Ok h
       /\ length h = Nat.max 1 (length ts)
       /\ nth_error h 0 = Some 0.
Proof.
  intros Hle.
  assert (Heq : eval_hop_function ts rxncenter
                = eval_hop_function ts (firstn (length ts) rxncenter)).
  { unfold eval_hop_function. cbv zeta.
    rewrite (hop_loop_agree rxncenter (firstn (length ts) rxncenter)
               (length ts)); [reflexivity|].
    intros i Hi. symmetry. apply firstn_agree, Hi. }
  split; [exact Heq|]. rewrite Heq.
  destruct (Nat.eq_dec (length ts) 0) as [Hz|Hnz].
  - exists [0]. rewrite Hz. apply length_zero_iff_nil in Hz. subst ts.
    repeat split.
  - assert (Hl : length ts = length (firstn (length ts) rxncenter))
      by (rewrite length_firstn; lia).
    destruct (eval_hop_function_head ts _ Hl) as (h & He & Hlh & H0); [lia|].
    exists h. split; [exact He|]. split; [lia | exact H0].
Qed.

Lemma surplus_centers_ignored_witness :
  eval_hop_function [0; 1] [1; 2; 3; 1]
  = eval_hop_function [0; 1] (firstn 2 [1; 2; 3; 1]).
Proof.
  apply (surplus_centers_ignored [0; 1] [1; 2; 3; 1]). simpl; lia.
Defined.

(** X7. With more time steps than centers (and at least two time steps)
    the loop runs off the end of the center list and the function raises
    an [IndexError]; no list is returned. *)
Theorem missing_centers_raise (ts rxncenter : list Z) :
  (length rxncenter < length ts)%nat ->
  (2 <= length ts)%nat ->
  eval_hop_function ts rxncenter = Raise IndexError.
Proof.
  intros Hlt H2. unfold eval_hop_function, range. cbv zeta.
  destruct (Nat.eq_dec (length rxncenter) 0) as [Hz|Hnz].
  - apply length_zero_iff_nil in Hz. rewrite Hz.
    destruct (length ts - 1)%nat as [|k] eqn:E; [lia|]. reflexivity.
  - replace (length ts - 1)%nat
      with ((length rxncenter - 1) + S (length ts - 1 - length rxncenter))%nat
      by lia.
    rewrite seq_app, for_each_app.
    destruct (hop_run_total rxncenter (length rxncenter - 1))
      as (st & Hrun & _ & _); [lia|].
    unfold hop_run, range in Hrun.
    replace (S (length rxncenter - 1) - 1)%nat
      with (length rxncenter - 1)%nat in Hrun by lia.
    rewrite Hrun. cbn [Py.bind seq for_each].
    replace (1 + (length rxncenter - 1))%nat with (length rxncenter) by lia.
    unfold hop_body, getitem at 1 2.
    destruct (nth_error rxncenter (length rxncenter - 1)) as [prev|] eqn:Hp;
      [|apply nth_error_None in Hp; lia].
    assert (Hc : nth_error rxncenter (length rxncenter) = None)
      by (apply nth_error_None; lia).
    rewrite Hc. reflexivity.
Qed.

Lemma missing_centers_raise_witness :
  eval_hop_function [0; 1; 2] [1; 2] = Raise IndexError.
Proof.
  apply (missing_centers_raise [0; 1; 2] [1; 2]); simpl; lia.
Defined.

(** X8. The hop counts of the first [n] frames do not depend on later
    frames: the function applied to the first [n] time steps and centers
    returns the first [n] entries of its result on the whole trajectory. *)
Theorem hop_counts_of_prefix (ts rxncenter h : list Z) (n : nat) :
  length ts = length rxncenter ->
  (1 <= n <= length rxncenter)%nat ->
  eval_hop_function ts rxncenter = Ok h ->
  eval_hop_function (firstn n ts) (firstn n rxncenter) = Ok (firstn n h).
Proof.
  intros Hlen Hn He.
  assert (Hln : length (firstn n ts) = n) by (rewrite length_firstn; lia).
  assert (Heq : eval_hop_function (firstn n ts) (firstn n rxncenter)
                = eval_hop_function (firstn n ts) rxncenter).
  { unfold eval_hop_function. cbv zeta. rewrite Hln.
    apply f_equal2; [|reflexivity].
    apply hop_loop_agree. intros i Hi. apply firstn_agree, Hi. }
  rewrite Heq, eval_hop_function_run, Hln.
  rewrite eval_hop_function_run, Hlen in He.
  destruct (hop_run_total rxncenter (n - 1)) as (st & Hrun & Hl & _); [lia|].
  destruct (hop_run rxncenter (length rxncenter - 1)) as [stT|e] eqn:HT;
    [|discriminate].
  simpl in He. inversion He; subst h. rewrite Hrun. simpl. f_equal.
  replace (length rxncenter - 1)%nat
    with (n - 1 + (length rxncenter - n))%nat in HT by lia.
  destruct (hop_run_prefix _ _ _ _ _ Hrun HT) as (suf & ->).
  rewrite firstn_app. replace (n - length (hts st))%nat with 0%nat by lia.
  rewrite firstn_all2 by lia. simpl. rewrite app_nil_r. reflexivity.
Qed.

Lemma hop_counts_of_prefix_witness :
  eval_hop_function (firstn 3 [0; 1; 2; 3; 4]) (firstn 3 [1; 1; 2; 2; 1])
  = Ok (firstn 3 [0; 0; 1; 1; 0]).
Proof.
  apply (hop_counts_of_prefix [0; 1; 2; 3; 4] [1; 1; 2; 2; 1]);
    [reflexivity | simpl; lia | reflexivity].
Defined.

End HopInputs.

Section HopRelabel.

Import forward_hop.
Open Scope Z_scope.

Variable f : Z -> Z.
Hypothesis f_injective : forall a b, f a = f b -> a = b.
Hypothesis f_sentinel : f 0 = 0.

Lemma getitem_map (l : list Z) (i : nat) :
  getitem (map f l) i
  = match getitem l i with Ok a => Ok (f a) | Raise e => Raise e end.
Proof.
  unfold getitem. rewrite nth_error_map.
  destruct (nth_error l i); reflexivity.
Qed.

Lemma getitem_last_map (l : list Z) :
  getitem_last (map f l)
  = match getitem_last l with Ok a => Ok (f a) | Raise e => Raise e end.
Proof.
  destruct l as [|x l]; [reflexivity|].
  unfold getitem_last. change (map f (x :: l)) with (f x :: map f l) at 1.
  cbv iota. rewrite getitem_map, length_map. reflexivity.
Qed.

Lemma eqb_relabel (a b : Z) : (f a =? f b) = (a =? b).
Proof.
  destruct (Z.eqb_spec a b) as [->|H]; [apply Z.eqb_refl|].
  apply Z.eqb_neq. intros E. apply H, f_injective, E.
Qed.

Lemma hop_body_relabel (rx : list Z) (st : hop_state) (i : nat) :
  hop_body (map f rx) {| hts := hts st; pdonor := map f (pdonor st) |} i
  = match hop_body rx st i with
    | Ok st' => Ok {| hts := hts st'; pdonor := map f (pdonor st') |}
    | Raise e => Raise e
    end.
Proof.
  unfold hop_body. rewrite !getitem_map.
  destruct (getitem rx (i - 1)) as [prev|e]; [|reflexivity].
  destruct (getitem rx i) as [curr|e]; [|reflexivity].
  cbn [Py.bind hts pdonor]. rewrite eqb_relabel.
  destruct (prev =? curr).
  - cbn [Py.bind fst snd].
    destruct (getitem (hts st) (i - 1)); reflexivity.
  - rewrite getitem_last_map.
    destruct (getitem_last (pdonor st)) as [top|e]; [|reflexivity].
    cbn [Py.bind]. rewrite eqb_relabel.
    destruct (curr =? top); cbn [Py.bind fst snd];
      destruct (getitem (hts st) (i - 1)); cbn [Py.bind hts pdonor];
      rewrite ?map_app; reflexivity.
Qed.

Lemma hop_loop_relabel (rx : list Z) (xs : list nat) (st : hop_state) :
  for_each (hop_body (map f rx)) xs
           {| hts := hts st; pdonor := map f (pdonor st) |}
  = match for_each (hop_body rx) xs st with
    | Ok st' => Ok {| hts := hts st'; pdonor := map f (pdonor st') |}
    | Raise e => Raise e
    end.
Proof.
  revert st. induction xs as [|x xs IH]; intros st; [reflexivity|].
  cbn [for_each]. rewrite hop_body_relabel.
  destruct (hop_body rx st x) as [st'|e]; [|reflexivity].
  cbn [Py.bind]. apply IH.
Qed.

(** X9. Only the pattern of equal centers matters: renaming the centers
    by a one-to-one map that leaves the sentinel identifier 0 in place
    does not change the hop counts (nor whether the function raises). *)
Theorem hop_counts_relabel (ts rxncenter : list Z) :
  eval_hop_function ts (map f rxncenter) = eval_hop_function ts rxncenter.
Proof.
  unfold eval_hop_function. cbv zeta.
  pose proof (hop_loop_relabel rxncenter (range 1 (length ts)) hop_init) as H.
  change {| hts := hts hop_init; pdonor := map f (pdonor hop_init) |}
    with {| hts := [0]; pdonor := [f 0] |} in H.
  rewrite f_sentinel in H. change {| hts := [0]; pdonor := [0] |} with hop_init in H.
  rewrite H.
  destruct (for_each (hop_body rxncenter) (range 1 (length ts)) hop_init);
    reflexivity.
Qed.

End HopRelabel.

Section HopRelabelInstance.

Import forward_hop.
Open Scope Z_scope.

Lemma hop_counts_relabel_witness :
  eval_hop_function [0; 1; 2; 3] (map (fun c => 2 * c) [1; 2; 3; 1])
  = eval_hop_function [0; 1; 2; 3] [1; 2; 3; 1].
Proof.
  apply (hop_counts_relabel (fun c => 2 * c)); intros; lia.
Defined.

End HopRelabelInstance.

(** ** civec_pdf.py: [second_largest] and the amplitude loop *)

Section SecondLargestFacts.

Import civec_pdf Spec.
Open Scope R_scope.

Lemma top_two_max (l : list R) (m1 m2 : R) :
  top_two l m1 m2 -> In m1 l /\ In m2 l /\ Forall (fun y => y <= m1) l.
Proof.
  intros (rest & HP & Hle & Hrest).
  split; [apply (Permutation_in _ (Permutation_sym HP)); left; reflexivity|].
  split; [apply (Permutation_in _ (Permutation_sym HP)); right; left;
          reflexivity|].
  apply Forall_forall. intros y Hy. apply (Permutation_in _ HP) in Hy.
  destruct Hy as [<-|[<-|Hy]]; [lra | lra |].
  rewrite Forall_forall in Hrest. specialize (Hrest _ Hy). lra.
Qed.

(** The largest and the second-largest entry are determined by the
    entries, whatever their order. *)
Lemma top_two_unique (l : list R) (m1 m2 n1 n2 : R) :
  top_two l m1 m2 -> top_two l n1 n2 -> m1 = n1 /\ m2 = n2.
Proof.
  intros Hm Hn.
  destruct (top_two_max _ _ _ Hm) as (Him & _ & Ham).
  destruct (top_two_max _ _ _ Hn) as (Hin & _ & Han).
  rewrite Forall_forall in Ham, Han.
  assert (E : m1 = n1) by (specialize (Ham _ Hin); specialize (Han _ Him); lra).
  subst n1. split; [reflexivity|].
  destruct Hm as (rest & HP & Hle & Hrest).
  destruct Hn as (rest' & HP' & Hle' & Hrest').
  assert (HQ : Permutation (m2 :: rest) (n2 :: rest')).
  { apply Permutation_cons_inv with (a := m1).
    rewrite <- HP. exact HP'. }
  rewrite Forall_forall in Hrest, Hrest'.
  assert (m2 <= n2).
  { assert (Hi : In m2 (n2 :: rest'))
      by (apply (Permutation_in _ HQ); left; reflexivity).
    destruct Hi as [<-|Hi]; [lra | apply Hrest', Hi]. }
  assert (n2 <= m2).
  { assert (Hi : In n2 (m2 :: rest))
      by (apply (Permutation_in _ (Permutation_sym HQ)); left; reflexivity).
    destruct Hi as [<-|Hi]; [lra | apply Hrest, Hi]. }
  lra.
Qed.

Lemma top_two_perm (l l' : list R) (m1 m2 : R) :
  Permutation l l' -> top_two l m1 m2 -> top_two l' m1 m2.
Proof.
  intros HP (rest & HQ & H). exists rest. split; [|exact H].
  rewrite <- HP. exact HQ.
Qed.

(** X10. [second_largest] and [max] depend on the entries of the vector
    only, not on their order. *)
Theorem second_largest_order_independent (l l' : list R) :
  Permutation l l' ->
  second_largest l = second_largest l' /\ py_max l = py_max l'.
Proof.
  intros HP. pose proof (Permutation_length HP) as Hlen.
  destruct (le_lt_dec 2 (length l)) as [H2|H2].
  - destruct (second_largest_top_two l H2) as (m1 & m2 & Ht & Hs).
    destruct (second_largest_top_two l') as (n1 & n2 & Ht' & Hs'); [lia|].
    pose proof (top_two_perm _ _ _ _ HP Ht) as Ht2.
    destruct (top_two_unique _ _ _ _ _ Ht2 Ht') as (-> & ->).
    split; [congruence|].
    rewrite (py_max_top_two _ _ _ Ht), (py_max_top_two _ _ _ Ht').
    reflexivity.
  - destruct l as [|x [|y l]]; simpl in H2; try lia.
    + apply Permutation_nil in HP. subst l'. split; reflexivity.
    + apply Permutation_length_1_inv in HP. subst l'. split; reflexivity.
Qed.

Lemma second_largest_order_independent_witness :
  second_largest [0.1; 0.7; 0.5] = second_largest [0.7; 0.5; 0.1].
Proof.
  apply (second_largest_order_independent [0.1; 0.7; 0.5] [0.7; 0.5; 0.1]).
  apply Permutation_cons_append.
Defined.

(** X11. On a vector with at least two entries [second_largest] returns an
    entry of the vector that is at most the maximum, and it returns the
    maximum itself exactly when the maximum occurs at least twice. *)
Theorem second_largest_tie_rule (l : list R) :
  (2 <= length l)%nat ->
  exists m1 m2,
    py_max l = Ok m1
    /\ second_largest l = Some m2
    /\ In m2 l
    /\ m2 <= m1
    /\ (m2 = m1 <-> (2 <= count_occ Req_dec_T l m1)%nat).
Proof.
  intros H2.
  destruct (second_largest_top_two l H2) as (m1 & m2 & Ht & Hs).
  exists m1, m2. split; [apply (py_max_top_two _ _ _ Ht)|].
  split; [exact Hs|].
  destruct (top_two_max _ _ _ Ht) as (_ & Hin & _).
  split; [exact Hin|].
  destruct Ht as (rest & HP & Hle & Hrest).
  split; [exact Hle|].
  rewrite (proj1 (Permutation_count_occ Req_dec_T _ _) HP m1).
  simpl. destruct (Req_dec_T m1 m1) as [_|N]; [|contradiction].
  destruct (Req_dec_T m2 m1) as [E|N].
  - split; [intros _; lia | intros _; exact E].
  - split; [intros E; contradiction|].
    intros Hc. exfalso.
    assert (Hz : count_occ Req_dec_T rest m1 = 0%nat).
    { apply count_occ_not_In. intros Hi.
      rewrite Forall_forall in Hrest. specialize (Hrest _ Hi). lra. }
    lia.
Qed.

Lemma second_largest_tie_rule_witness :
  exists m1 m2,
    py_max [0.7; 0.1; 0.7] = Ok m1 /\ second_largest [0.7; 0.1; 0.7] = Some m2.
Proof.
  destruct (second_largest_tie_rule [0.7; 0.1; 0.7])
    as (m1 & m2 & Hm & Hs & _); [simpl; lia|].
  exists m1, m2. split; assumption.
Defined.

Lemma sample_body_acc (f s : list R) (i : list R) :
  sample_body (f, s) i
  = match sample_body ([], []) i with
    | Ok (f1, s1) => Ok (f ++ f1, s ++ s1)
    | Raise e => Raise e
    end.
Proof.
  unfold sample_body. destruct (py_max i) as [l|e]; [|reflexivity].
  cbn [Py.bind fst snd]. destruct (square (second_largest i)); reflexivity.
Qed.

Lemma sample_loop_acc (tmp : list (list R)) (f s : list R) :
  for_each sample_body tmp (f, s)
  = match for_each sample_body tmp ([], []) with
    | Ok (f1, s1) => Ok (f ++ f1, s ++ s1)
    | Raise e => Raise e
    end.
Proof.
  revert f s. induction tmp as [|i tmp IH]; intros f s.
  - simpl. rewrite !app_nil_r. reflexivity.
  - cbn [for_each]. rewrite (sample_body_acc f s).
    destruct (sample_body ([], []) i) as [[f1 s1]|e]; [|reflexivity].
    cbn [Py.bind]. rewrite (IH (f ++ f1) (s ++ s1)), (IH f1 s1).
    destruct (for_each sample_body tmp ([], [])) as [[f2 s2]|e];
      [|reflexivity].
    rewrite !app_assoc. reflexivity.
Qed.

(** X12. The amplitude loop works frame by frame: on two trajectories
    put end to end it returns the arrays of the first followed by the
    arrays of the second, and it raises what the first raises, or else
    what the second raises. *)
Theorem amplitude_samples_app (a b : list (list R)) :
  amplitude_samples (a ++ b)
  = match amplitude_samples a with
    | Ok (f1, s1) =>
        match amplitude_samples b with
        | Ok (f2, s2) => Ok (f1 ++ f2, s1 ++ s2)
        | Raise e => Raise e
        end
    | Raise e => Raise e
    end.
Proof.
  unfold amplitude_samples. rewrite for_each_app.
  destruct (for_each sample_body a ([], [])) as [[f1 s1]|e]; [|reflexivity].
  cbn [Py.bind]. apply sample_loop_acc.
Qed.

End SecondLargestFacts.

(** ** civec_pdf.py: more on the free-energy block *)

Section FreeEnergyModes.

Import civec_pdf.
Open Scope R_scope.

Variable linspace : R -> R -> nat -> list R.
Hypothesis linspace_length :
  forall start stop num, length (linspace start stop num) = num.
Variable gaussian_kde : list R -> R -> R.

Lemma offset_minimum (k r : R) (rs : list R) (m m' : R) :
  In m (r :: rs) -> Forall (fun y => m <= y) (r :: rs) ->
  In m' (map (fun y => y + k) (r :: rs)) ->
  Forall (fun y => m' <= y) (map (fun y => y + k) (r :: rs)) ->
  m' = m + k.
Proof.
  intros Hin Hall Hin' Hall'.
  rewrite Forall_forall in Hall, Hall'.
  apply in_map_iff in Hin'. destruct Hin' as (y & <- & Hy).
  specialize (Hall y Hy).
  assert (y + k <= m + k)
    by (apply Hall'; apply in_map_iff; exists m; split; [reflexivity|exact Hin]).
  lra.
Qed.

(** Adding a constant to every finite energy does not change the shifted
    profile. *)
Lemma shift_zero_offset (k : R) (rs : list R) :
  shift_zero (map Fin (map (fun y => y + k) rs)) = shift_zero (map Fin rs).
Proof.
  destruct rs as [|r rs]; [reflexivity|].
  destruct (shift_zero_finite r rs) as (m & Hin & Hall & ->).
  destruct (shift_zero_finite (r + k) (map (fun y => y + k) rs))
    as (m' & Hin' & Hall' & He).
  change ((r + k) :: map (fun y => y + k) rs)
    with (map (fun y => y + k) (r :: rs)) in *.
  rewrite He. f_equal. f_equal. rewrite map_map.
  apply map_ext. intros y.
  rewrite (offset_minimum k r rs m m' Hin Hall Hin' Hall'). lra.
Qed.

(** X14. A flag with [nbins = 0] gives an empty grid, and taking the
    minimum of the empty energy array raises a [ValueError]. *)
Theorem empty_grid_raises (genfe genfed : bool) (first second : list R) :
  genfe || genfed = true ->
  free_energy_profile linspace gaussian_kde genfe genfed 0 first second
  = Raise ValueError.
Proof.
  intros H. unfold free_energy_profile. rewrite H.
  pose proof (pre_shift_length linspace gaussian_kde genfe 0 first second)
    as Hl.
  rewrite (energy_grid_length linspace linspace_length) in Hl.
  assert (Hz : length (pre_shift_energy linspace gaussian_kde genfe 0
                                        first second) = 0%nat)
    by (destruct genfe; exact Hl).
  apply length_zero_iff_nil in Hz. rewrite Hz. reflexivity.
Qed.

(** X15. The shift of an array of finite energies returns an array of
    the same length whose entries are all non-negative, with an entry equal
    to 0; shifting that array again returns it unchanged. *)
Theorem shift_zero_idempotent (r : R) (rs : list R) :
  exists out,
    shift_zero (map Fin (r :: rs)) = Ok (map Fin out)
    /\ length out = S (length rs)
    /\ Forall (fun y => 0 <= y) out
    /\ In 0 out
    /\ shift_zero (map Fin out) = Ok (map Fin out).
Proof.
  destruct (shift_zero_finite r rs) as (m & Hin & Hall & He).
  exists (map (fun y => y + - m) (r :: rs)).
  split; [exact He|].
  split; [rewrite length_map; reflexivity|].
  assert (Hnn : Forall (fun y => 0 <= y) (map (fun y => y + - m) (r :: rs))).
  { apply Forall_forall. intros y Hy. apply in_map_iff in Hy.
    destruct Hy as (z & <- & Hz). rewrite Forall_forall in Hall.
    specialize (Hall z Hz). lra. }
  assert (H0 : In 0 (map (fun y => y + - m) (r :: rs))).
  { apply in_map_iff. exists m. split; [lra | exact Hin]. }
  split; [exact Hnn|]. split; [exact H0|].
  change (map (fun y => y + - m) (r :: rs))
    with ((r + - m) :: map (fun y => y + - m) rs) in *.
  destruct (shift_zero_finite (r + - m) (map (fun y => y + - m) rs))
    as (m' & Hin' & Hall' & He').
  rewrite He'. f_equal. f_equal.
  assert (m' = 0).
  { rewrite Forall_forall in Hnn, Hall'.
    specialize (Hnn _ Hin'). specialize (Hall' _ H0). lra. }
  subst m'. rewrite <- (map_id (_ :: _)) at 2.
  apply map_ext. intros y. lra.
Qed.

(** X16. In single-coordinate mode the returned profile does not depend
    on the normalisation of the density: multiplying a density that is
    positive on the grid by a positive constant gives the same profile. *)
Theorem single_mode_scale_invariant
        (a : R) (genfed : bool) (nbins : nat) (first second : list R) :
  0 < a ->
  (forall x, In x (energy_grid linspace true nbins) ->
             0 < gaussian_kde first x) ->
  free_energy_profile linspace (fun s x => a * gaussian_kde s x)
                      true genfed nbins first second
  = free_energy_profile linspace gaussian_kde true genfed nbins first second.
Proof.
  intros Ha Hpos. unfold free_energy_profile. cbn [orb].
  set (c := - kb_kcal * 300.0).
  set (rs := map (fun x => c * ln (gaussian_kde first x))
                 (energy_grid linspace true nbins)).
  assert (H1 : pre_shift_energy linspace gaussian_kde true nbins first second
               = map Fin rs).
  { unfold pre_shift_energy, rs, energy_grid. rewrite map_map.
    apply map_ext_in. intros x Hx. unfold energy_single. cbv zeta.
    rewrite np_log_positive by (apply Hpos, Hx). reflexivity. }
  assert (H2 : pre_shift_energy linspace (fun s x => a * gaussian_kde s x)
                                true nbins first second
               = map Fin (map (fun y => y + c * ln a) rs)).
  { unfold pre_shift_energy, rs, energy_grid. rewrite !map_map.
    apply map_ext_in. intros x Hx. unfold energy_single. cbv zeta.
    specialize (Hpos x Hx).
    rewrite np_log_positive by (apply Rmult_lt_0_compat; assumption).
    cbn [np_mul]. f_equal. rewrite ln_mult by assumption. fold c. ring. }
  rewrite H1, H2, shift_zero_offset. reflexivity.
Qed.

End FreeEnergyModes.

Section FreeEnergyModesInstances.

Import civec_pdf.
Open Scope R_scope.

Lemma empty_grid_raises_witness :
  free_energy_profile linspace_exact (fun _ _ => 1)
                      false true 0 [0.64] [0.36]
  = Raise ValueError.
Proof.
  apply (empty_grid_raises linspace_exact linspace_exact_length
           (fun _ _ => 1) false true).
  reflexivity.
Defined.

Lemma single_mode_scale_invariant_witness :
  free_energy_profile linspace_exact (fun s x => 2 * (fun _ _ => 1) s x)
                      true false 3 [0.64] [0.36]
  = free_energy_profile linspace_exact (fun _ _ => 1)
                        true false 3 [0.64] [0.36].
Proof.
  apply (single_mode_scale_invariant linspace_exact (fun _ _ => 1)
           2 false 3 [0.64] [0.36]).
  - lra.
  - intros x _. lra.
Defined.

End FreeEnergyModesInstances.

(** ** hendersonhasselbalch.py: the shape of the three curves *)

Section SpeciesFacts.

Import hendersonhasselbalch.
Open Scope R_scope.

Lemma fraction_range (a d : R) : 0 < a -> a < d -> 0 < a / d < 1.
Proof.
  intros Ha Hd. assert (Hi : 0 < / d) by (apply Rinv_0_lt_compat; lra).
  assert (Hm : d * / d = 1) by (apply Rinv_r; lra).
  unfold Rdiv. split; nra.
Qed.

Lemma fraction_lt (a b d : R) : 0 < d -> (a / d < b / d <-> a < b).
Proof.
  intros Hd. assert (Hi : 0 < / d) by (apply Rinv_0_lt_compat; lra).
  assert (Hm : d * / d = 1) by (apply Rinv_r; lra).
  unfold Rdiv. split; intros H; [|nra].
  apply (Rmult_lt_reg_r (/ d)); assumption.
Qed.

Lemma fraction_eq (a b d : R) : 0 < d -> (a / d = b / d <-> a = b).
Proof.
  intros Hd. split; [|intros ->; reflexivity].
  unfold Rdiv. intros H. apply (Rmult_eq_reg_r (/ d)); [exact H|].
  apply Rinv_neq_0_compat. lra.
Qed.

Lemma fraction_cross (a b c d : R) :
  0 < b -> 0 < d -> a * d < c * b -> a / b < c / d.
Proof.
  intros Hb Hd H.
  assert (E : c / d - a / b = (c * b - a * d) / (b * d)) by (field; lra).
  assert (0 < (c * b - a * d) / (b * d)).
  { apply Rdiv_lt_0_compat; [lra|]. apply Rmult_lt_0_compat; assumption. }
  lra.
Qed.

Lemma ln_10_positive : 0 < ln 10.
Proof. rewrite <- ln_1. apply ln_increasing; lra. Qed.

(** [10**(-ph)] against a positive constant, read on the pH scale. *)
Lemma h3o_above (ka ph : R) :
  0 < ka -> (ka < Rpower 10 (- ph) <-> ph < - (ln ka / ln 10)).
Proof.
  intros Hk. pose proof ln_10_positive as HL.
  assert (Hq : ln ka / ln 10 * ln 10 = ln ka) by (field; lra).
  unfold Rpower. rewrite <- (exp_ln ka Hk) at 1. split; intros H.
  - apply exp_lt_inv in H. nra.
  - apply exp_increasing. nra.
Qed.

Lemma h3o_equal (ka ph : R) :
  0 < ka -> (Rpower 10 (- ph) = ka <-> ph = - (ln ka / ln 10)).
Proof.
  intros Hk. pose proof ln_10_positive as HL.
  assert (Hq : ln ka / ln 10 * ln 10 = ln ka) by (field; lra).
  unfold Rpower. rewrite <- (exp_ln ka Hk) at 1. split; intros H.
  - apply exp_inv in H. nra.
  - f_equal. nra.
Qed.

Lemma h3o_decreasing (ph ph' : R) :
  ph < ph' -> Rpower 10 (- ph') < Rpower 10 (- ph).
Proof. intros H. apply Rpower_lt; lra. Qed.

(** X18. For every pH each of the three fractions lies strictly between
    0 and 1. *)
Theorem species_fractions_range (ph : R) :
  let '(tmp1, tmp2, tmp3) := species_fractions ph in
  0 < tmp1 < 1 /\ 0 < tmp2 < 1 /\ 0 < tmp3 < 1.
Proof.
  unfold species_fractions. cbv zeta.
  pose proof (h3o_positive ph) as Hh.
  pose proof ka1_positive as H1. pose proof ka2_positive as H2.
  set (h3o := Rpower 10 (- ph)) in *.
  assert (0 < h3o * h3o) by (apply Rmult_lt_0_compat; assumption).
  assert (0 < h3o * ka1) by (apply Rmult_lt_0_compat; assumption).
  assert (0 < ka1 * ka2) by (apply Rmult_lt_0_compat; assumption).
  repeat split; apply fraction_range; lra.
Qed.

(** X19. The curves cross where the code draws its vertical lines in
    exact arithmetic: the H2CO3 fraction is above the HCO3 fraction
    exactly for pH below [-log10(ka1)] and equal to it at that pH; the
    HCO3 fraction is above the CO3 fraction exactly for pH below
    [-log10(ka2)] and equal to it at that pH. *)
Theorem species_fractions_crossing (ph : R) :
  let '(tmp1, tmp2, tmp3) := species_fractions ph in
  (tmp2 < tmp1 <-> ph < - (ln ka1 / ln 10))
  /\ (tmp1 = tmp2 <-> ph = - (ln ka1 / ln 10))
  /\ (tmp3 < tmp2 <-> ph < - (ln ka2 / ln 10))
  /\ (tmp2 = tmp3 <-> ph = - (ln ka2 / ln 10)).
Proof.
  unfold species_fractions. cbv zeta.
  pose proof (h3o_positive ph) as Hh.
  pose proof ka1_positive as H1. pose proof ka2_positive as H2.
  pose proof (h3o_above ka1 ph H1) as A1.
  pose proof (h3o_equal ka1 ph H1) as E1.
  pose proof (h3o_above ka2 ph H2) as A2.
  pose proof (h3o_equal ka2 ph H2) as E2.
  pose proof (denominator_positive _ Hh) as Hd.
  set (h3o := Rpower 10 (- ph)) in *.
  rewrite !fraction_lt, !fraction_eq by exact Hd.
  rewrite <- A1, <- E1, <- A2, <- E2.
  repeat split; intros H; nra.
Qed.

(** X20. Along increasing pH the H2CO3 fraction strictly decreases and
    the CO3 fraction strictly increases. *)
Theorem species_fractions_monotone (ph ph' : R) :
  ph < ph' ->
  fst (fst (species_fractions ph')) < fst (fst (species_fractions ph))
  /\ snd (species_fractions ph) < snd (species_fractions ph').
Proof.
  intros Hlt. unfold species_fractions. cbv zeta. cbn [fst snd].
  pose proof (h3o_positive ph) as Hh. pose proof (h3o_positive ph') as Hh'.
  pose proof (h3o_decreasing ph ph' Hlt) as Hdec.
  pose proof ka1_positive as H1. pose proof ka2_positive as H2.
  pose proof (denominator_positive _ Hh) as Hd.
  pose proof (denominator_positive _ Hh') as Hd'.
  set (h := Rpower 10 (- ph)) in *. set (h' := Rpower 10 (- ph')) in *.
  assert (Hk : 0 < ka1 * ka2) by (apply Rmult_lt_0_compat; assumption).
  assert (Hhh : 0 < h * h') by (apply Rmult_lt_0_compat; assumption).
  assert (Hsq : h' * h' < h * h) by nra.
  split; apply fraction_cross; try assumption.
  - assert (0 < h * h' * ka1 * (h - h'))
      by (apply Rmult_lt_0_compat;
          [apply Rmult_lt_0_compat; [exact Hhh | exact H1] | lra]).
    assert (0 < ka1 * ka2 * (h * h - h' * h')) by (apply Rmult_lt_0_compat; lra).
    nra.
  - assert (0 < ka1 * ka2 * (h * h - h' * h')) by (apply Rmult_lt_0_compat; lra).
    assert (0 < ka1 * ka2 * (ka1 * (h - h')))
      by (apply Rmult_lt_0_compat;
          [exact Hk | apply Rmult_lt_0_compat; [exact H1 | lra]]).
    nra.
Qed.

Lemma species_fractions_monotone_witness :
  fst (fst (species_fractions 8)) < fst (fst (species_fractions 7))
  /\ snd (species_fractions 7) < snd (species_fractions 8).
Proof.
  apply (species_fractions_monotone 7 8). lra.
Defined.

End SpeciesFacts.

(** ** forward_hop.py: backward hops do not come in a row *)

Section HopAlternation.

Import forward_hop.
Open Scope Z_scope.

Variables ts rxncenter : list Z.
Hypothesis aligned : length ts = length rxncenter.

(** A transition read with default-valued indexing of the result. *)
Lemma hop_transition_nth (h : list Z) (t : nat) :
  eval_hop_function ts rxncenter = Ok h ->
  (1 <= t < length rxncenter)%nat ->
  exists prev curr stk top,
    nth_error rxncenter (t - 1) = Some prev
    /\ nth_error rxncenter t = Some curr
    /\ donor_history rxncenter (t - 1) = Ok stk
    /\ getitem_last stk = Ok top
    /\ nth t h 0 - nth (t - 1) h 0 = hop_delta prev curr top
    /\ donor_history rxncenter t = Ok (hop_stack prev curr top stk).
Proof.
  intros He Ht.
  destruct (hop_transition ts rxncenter t aligned Ht)
    as (h' & prev & curr & stk & top & h0 & He' & _ & Hp & Hc & Hs & Htop
        & Hh0 & Hh1 & Hs1).
  rewrite He in He'; inversion He'; subst h'.
  exists prev, curr, stk, top. repeat split; try assumption.
  rewrite (nth_error_nth _ _ 0 Hh1), (nth_error_nth _ _ 0 Hh0). lia.
Qed.

(** After a backward hop, and as long as no forward hop follows, the last
    donor is the current center, so no hop can be counted backward. *)
Lemma hop_after_backward (h : list Z) (t1 d : nat) :
  eval_hop_function ts rxncenter = Ok h ->
  (1 <= t1)%nat -> (t1 + d < length rxncenter)%nat ->
  nth t1 h 0 - nth (t1 - 1) h 0 = -1 ->
  (exists t, (t1 < t <= t1 + d)%nat /\ nth t h 0 - nth (t - 1) h 0 = 1)
  \/ (exists stk c,
         donor_history rxncenter (t1 + d) = Ok stk
         /\ nth_error rxncenter (t1 + d) = Some c
         /\ getitem_last stk = Ok c).
Proof.
  intros He H1 Hlt Hb. induction d as [|d IH].
  - right. rewrite Nat.add_0_r in *.
    destruct (hop_transition_nth h t1 He)
      as (prev & curr & stk & top & _ & Hc & _ & Htop & Hd & Hs); [lia|].
    rewrite Hb in Hd. unfold hop_delta, hop_stack in *.
    destruct (prev =? curr); [discriminate|].
    destruct (Z.eqb_spec curr top) as [->|_]; [|discriminate].
    exists stk, top. repeat split; assumption.
  - destruct IH as [(t & Ht & Hf) | (stk & c & Hs & Hc & Htop)]; [lia | |].
    + left. exists t. split; [lia | exact Hf].
    + destruct (hop_transition_nth h (t1 + S d) He)
        as (prev & curr & stk' & top & Hp & Hcu & Hs' & Htop' & Hd & Hs1);
        [lia|].
      replace (t1 + S d - 1)%nat with (t1 + d)%nat in * by lia.
      assert (prev = c) by congruence.
      assert (stk' = stk) by congruence. subst.
      assert (top = c) by congruence. subst.
      unfold hop_delta, hop_stack in *.
      destruct (Z.eqb_spec c curr) as [->|Hne].
      * right. exists stk, curr. repeat split; assumption.
      * destruct (Z.eqb_spec curr c) as [->|_]; [contradiction|].
        left. exists (t1 + S d)%nat. split; [lia|].
        replace (t1 + S d - 1)%nat with (t1 + d)%nat by lia. exact Hd.
Qed.

(** X21. Two backward hops are always separated by a forward hop: if
    the count goes down at the frames [t1 < t2], it goes up at some frame
    strictly between them. *)
Theorem backward_hops_separated (h : list Z) (t1 t2 : nat) :
  eval_hop_function ts rxncenter = Ok h ->
  (1 <= t1 < t2)%nat -> (t2 < length rxncenter)%nat ->
  nth t1 h 0 - nth (t1 - 1) h 0 = -1 ->
  nth t2 h 0 - nth (t2 - 1) h 0 = -1 ->
  exists t, (t1 < t < t2)%nat /\ nth t h 0 - nth (t - 1) h 0 = 1.
Proof.
  intros He (H1 & H12) H2 Hb1 Hb2.
  destruct (hop_after_backward h t1 (t2 - 1 - t1) He H1)
    as [(t & Ht & Hf) | (stk & c & Hs & Hc & Htop)]; [lia | exact Hb1 | |].
  - exists t. split; [lia | exact Hf].
  - exfalso.
    replace (t1 + (t2 - 1 - t1))%nat with (t2 - 1)%nat in * by lia.
    destruct (hop_transition_nth h t2 He)
      as (prev & curr & stk' & top & Hp & _ & Hs' & Htop' & Hd & _); [lia|].
    assert (prev = c) by congruence.
    assert (stk' = stk) by congruence. subst.
    assert (top = c) by congruence. subst.
    rewrite Hb2 in Hd. unfold hop_delta in Hd.
    destruct (Z.eqb_spec c curr) as [->|Hne]; [discriminate|].
    destruct (Z.eqb_spec curr c) as [->|_]; [contradiction | discriminate].
Qed.

End HopAlternation.

Section HopAlternationInstance.

Import forward_hop.
Open Scope Z_scope.

Lemma backward_hops_separated_witness :
  exists t, (2 < t < 4)%nat
            /\ nth t [0; 1; 0; 1; 0] 0 - nth (t - 1) [0; 1; 0; 1; 0] 0 = 1.
Proof.
  apply (backward_hops_separated
           [0; 1; 2; 3; 4] [7; 9; 7; 9; 7] eq_refl [0; 1; 0; 1; 0] 2 4);
    [reflexivity | lia | simpl; lia | reflexivity | reflexivity].
Defined.

End HopAlternationInstance.

(** ** civec_pdf.py: the samples handed to the density estimator *)

Section DifferenceSamples.

Import civec_pdf Spec.
Open Scope R_scope.

Lemma in_combine_nth {A B : Type} (a : list A) (b : list B) (x : A) (y : B) :
  In (x, y) (combine a b) ->
  exists k, nth_error a k = Some x /\ nth_error b k = Some y.
Proof.
  revert b. induction a as [|x0 a IH]; intros [|y0 b] H; simpl in H;
    try contradiction.
  destruct H as [E|H].
  - inversion E; subst. exists 0%nat. split; reflexivity.
  - destruct (IH b H) as (k & Ha & Hb). exists (S k). split; assumption.
Qed.

Lemma arr_sub_length (a b : list R) :
  length a = length b -> length (arr_sub a b) = length a.
Proof.
  intros H. unfold arr_sub. rewrite length_map, length_combine. lia.
Qed.

(** X22. When every frame carries at least two amplitudes, all between 0
    and 1, both arrays hold values between 0 and 1, and the samples handed
    to the two estimators of the difference mode, [first - second] and
    [second - first], number one per frame and lie in [0, 1] and in
    [-1, 0] respectively. *)
Theorem difference_samples_range (tmp : list (list R)) :
  Forall (fun i => (2 <= length i)%nat /\ Forall (fun y => 0 <= y <= 1) i)
         tmp ->
  exists first second,
    amplitude_samples tmp = Ok (first, second)
    /\ Forall (fun v => 0 <= v <= 1) first
    /\ Forall (fun v => 0 <= v <= 1) second
    /\ length (arr_sub first second) = length tmp
    /\ length (arr_sub second first) = length tmp
    /\ Forall (fun v => 0 <= v <= 1) (arr_sub first second)
    /\ Forall (fun v => -1 <= v <= 0) (arr_sub second first).
Proof.
  intros Hall.
  assert (Hlen2 : Forall (fun i => (2 <= length i)%nat) tmp)
    by (eapply Forall_impl; [|exact Hall]; simpl; intros i (H & _); exact H).
  destruct (amplitude_samples_total tmp Hlen2)
    as (first & second & He & Hlf & Hls & Hk).
  assert (Hpair : forall k x y,
             nth_error first k = Some x -> nth_error second k = Some y ->
             0 <= y /\ y <= x /\ x <= 1).
  { intros k x y Hx Hy.
    assert (Hlt : (k < length tmp)%nat)
      by (rewrite <- Hlf; apply nth_error_Some; congruence).
    destruct (nth_error tmp k) as [i|] eqn:Hi;
      [|apply nth_error_None in Hi; lia].
    destruct (Hk k i Hi) as (m1 & m2 & Ht & Hf & Hs).
    assert (x = m1 * m1) by congruence.
    assert (y = m2 * m2) by congruence. subst x y.
    rewrite Forall_forall in Hall.
    destruct (Hall i (nth_error_In _ _ Hi)) as (_ & Hr).
    rewrite Forall_forall in Hr.
    destruct (top_two_max _ _ _ Ht) as (Hi1 & Hi2 & _).
    pose proof (Hr _ Hi1). pose proof (Hr _ Hi2).
    assert (m2 <= m1) by (destruct Ht as (? & _ & ? & _); assumption).
    repeat split; nra. }
  assert (Hd : Forall (fun v => 0 <= v <= 1) (arr_sub first second)).
  { apply Forall_forall. intros v Hv. unfold arr_sub in Hv.
    apply in_map_iff in Hv. destruct Hv as ((x & y) & <- & Hxy).
    destruct (in_combine_nth _ _ _ _ Hxy) as (k & Hx & Hy).
    destruct (Hpair k x y Hx Hy) as (? & ? & ?). simpl. lra. }
  exists first, second. split; [exact He|].
  split.
  { apply Forall_forall. intros x Hx. apply In_nth_error in Hx.
    destruct Hx as (k & Hx).
    destruct (nth_error second k) as [y|] eqn:Hy;
      [|apply nth_error_None in Hy;
        assert (k < length first)%nat by (apply nth_error_Some; congruence);
        lia].
    destruct (Hpair k x y Hx Hy) as (? & ? & ?). lra. }
  split.
  { apply Forall_forall. intros y Hy. apply In_nth_error in Hy.
    destruct Hy as (k & Hy).
    destruct (nth_error first k) as [x|] eqn:Hx;
      [|apply nth_error_None in Hx;
        assert (k < length second)%nat by (apply nth_error_Some; congruence);
        lia].
    destruct (Hpair k x y Hx Hy) as (? & ? & ?). lra. }
  split; [rewrite arr_sub_length; lia|].
  split; [rewrite arr_sub_length; lia|].
  split; [exact Hd|].
  rewrite arr_sub_negated. apply Forall_forall. intros v Hv.
  apply in_map_iff in Hv. destruct Hv as (w & <- & Hw).
  rewrite Forall_forall in Hd. specialize (Hd w Hw). lra.
Qed.

Lemma difference_samples_range_witness :
  exists first second,
    amplitude_samples [[0.6; 0.8]; [0.7; 0.7; 0.1]] = Ok (first, second)
    /\ Forall (fun v => 0 <= v <= 1) (arr_sub first second).
Proof.
  destruct (difference_samples_range [[0.6; 0.8]; [0.7; 0.7; 0.1]])
    as (first & second & He & _ & _ & _ & _ & Hd & _).
  - repeat constructor; lra.
  - exists first, second. split; assumption.
Defined.

End DifferenceSamples.
